(** * The chat front end: response parser and conversation state

    A shallow embedding of the two [Chat] components of the front end
    (the empty-start variant and the greeting variant) and of the
    JavaScript built-ins they call: strings as sequences of UTF-16 code
    units, the backtracking regular-expression matcher, [String.prototype]
    [match], [replace], [split] and [trim], [JSON.parse], property access,
    truthiness and the [||] operator. *)

From Stdlib Require Import String Ascii.
From Stdlib Require Import List NArith ZArith Bool Lia.
Import ListNotations.

Set Implicit Arguments.
Set Warnings "-register-all".

(** ** JavaScript strings *)

(** A JavaScript string is a sequence of UTF-16 code units. *)
Definition code_unit := N.
Definition jsstring := list code_unit.

Module Utf.

(** The source files are UTF-8; a string literal of this file holds the
    same bytes.  [code_points] decodes them, [utf16] re-encodes the code
    points as the code units the JavaScript engine sees. *)
Fixpoint code_points (bs : list N) : list N :=
  match bs with
  | [] => []
  | b0 :: t0 =>
    if (b0 <? 0x80)%N then b0 :: code_points t0
    else
      match t0 with
      | [] => []
      | b1 :: t1 =>
        if (b0 <? 0xE0)%N
        then (b0 mod 32 * 64 + b1 mod 64)%N :: code_points t1
        else
          match t1 with
          | [] => []
          | b2 :: t2 =>
            if (b0 <? 0xF0)%N
            then (b0 mod 16 * 4096 + b1 mod 64 * 64 + b2 mod 64)%N
                   :: code_points t2
            else
              match t2 with
              | [] => []
              | b3 :: t3 =>
                (b0 mod 8 * 262144 + b1 mod 64 * 4096
                 + b2 mod 64 * 64 + b3 mod 64)%N :: code_points t3
              end
          end
      end
  end.

Definition units_of_code_point (cp : N) : jsstring :=
  if (cp <? 0x10000)%N then [cp]
  else [(0xD800 + (cp - 0x10000) / 1024)%N;
        (0xDC00 + (cp - 0x10000) mod 1024)%N].

Definition utf16 (s : string) : jsstring :=
  flat_map units_of_code_point
           (code_points (map N_of_ascii (list_ascii_of_string s))).

End Utf.

Notation "'js:' s" := (Utf.utf16 s) (at level 9, s at level 0, format "'js:' s").

(** Characters the code names. *)
Definition LF : code_unit := 10%N.
Definition QUOTE : code_unit := 34%N.
Definition LBRACE : code_unit := 123%N.
Definition RBRACE : code_unit := 125%N.
Definition BULLET : code_unit := 0x2022%N.

(** Test inputs that hold JSON are written with apostrophes where the text
    has double quotes; [jsq] puts the double quotes back. *)
Definition jsq (s : string) : jsstring :=
  map (fun c => if (c =? 39)%N then QUOTE else c) (Utf.utf16 s).

Fixpoint jsstring_eqb (a b : jsstring) : bool :=
  match a, b with
  | [], [] => true
  | x :: a', y :: b' => (x =? y)%N && jsstring_eqb a' b'
  | _, _ => false
  end.

(** WhiteSpace and LineTerminator of ECMAScript: what [trim] strips and
    what [\s] matches. *)
Definition is_space (c : code_unit) : bool :=
  ((c =? 0x09) || (c =? 0x0A) || (c =? 0x0B) || (c =? 0x0C) || (c =? 0x0D)
   || (c =? 0x20) || (c =? 0xA0) || (c =? 0x1680)
   || ((0x2000 <=? c) && (c <=? 0x200A))
   || (c =? 0x2028) || (c =? 0x2029) || (c =? 0x202F) || (c =? 0x205F)
   || (c =? 0x3000) || (c =? 0xFEFF))%N.

Fixpoint trimStart (s : jsstring) : jsstring :=
  match s with
  | c :: s' => if is_space c then trimStart s' else s
  | [] => []
  end.

Definition trimEnd (s : jsstring) : jsstring := rev (trimStart (rev s)).

(** [String.prototype.trim] *)
Definition trim (s : jsstring) : jsstring := trimEnd (trimStart s).

(** [s.split(sep)] for a separator of one code unit (both separators of
    the source, the line feed and the bullet U+2022, are one code unit).
    [cur] is the piece being read.  The result is never empty. *)
Fixpoint split_on_from (sep : code_unit) (cur s : jsstring) : list jsstring :=
  match s with
  | [] => [cur]
  | c :: s' =>
    if (c =? sep)%N then cur :: split_on_from sep [] s'
    else split_on_from sep (cur ++ [c]) s'
  end.

Definition split_on (sep : code_unit) (s : jsstring) : list jsstring :=
  split_on_from sep [] s.

(** [a.join(sep)] *)
Fixpoint join (sep : jsstring) (a : list jsstring) : jsstring :=
  match a with
  | [] => []
  | [x] => x
  | x :: a' => x ++ sep ++ join sep a'
  end.

(** ** Regular expressions

    The matcher follows the ECMAScript semantics of patterns: a matcher
    takes a match state and a continuation, and backtracks into the next
    alternative when the continuation fails.  Only the constructs the
    source uses are present (no flags: code units, not code points). *)

Module RegExp.

Inductive class_atom :=
| CChar (c : code_unit)          (* a code unit written in the class *)
| CSpace                          (* \s *)
| CNonSpace.                      (* \S *)

Inductive regex :=
| Empty
| Class (negated : bool) (atoms : list class_atom)   (* [...] and [^...] *)
| Seq (r1 r2 : regex)
| Alt (r1 r2 : regex)                                 (* r1|r2 *)
| Star (greedy : bool) (r : regex)                    (* r* and r*? *)
| Group (r : regex)                                   (* ( r ), group 1 *)
| NonCapture (r : regex)                              (* (?: r ) *)
| Lookahead (r : regex)                               (* (?= r ) *)
| AssertStart.                                        (* ^ *)

Definition Chr (c : code_unit) : regex := Class false [CChar c].

(** The literal text [s]. *)
Fixpoint Lit (s : jsstring) : regex :=
  match s with
  | [] => Empty
  | [c] => Chr c
  | c :: s' => Seq (Chr c) (Lit s')
  end.

(** The class whose members are the code units of [s]. *)
Definition ClassOf (s : jsstring) : regex := Class false (map CChar s).

Definition atom_matches (a : class_atom) (c : code_unit) : bool :=
  match a with
  | CChar d => (c =? d)%N
  | CSpace => is_space c
  | CNonSpace => negb (is_space c)
  end.

Definition class_matches (negated : bool) (atoms : list class_atom)
           (c : code_unit) : bool :=
  xorb negated (existsb (fun a => atom_matches a c) atoms).

(** [endIndex] is the position reached in the input, [remaining] the input
    from there on, [capture1] what group 1 holds. *)
Record MatchState := mkState {
  endIndex : nat;
  remaining : jsstring;
  capture1 : option jsstring
}.

Definition Continuation := MatchState -> option MatchState.
Definition Matcher := MatchState -> Continuation -> option MatchState.

(** A matcher that gives the same result with continuations that agree. *)
Definition extensional (m : Matcher) : Prop :=
  forall x c1 c2, (forall y, c1 y = c2 y) -> m x c1 = m x c2.

(** RepeatMatcher for the quantifier [*]: an iteration that consumes
    nothing fails (matchers only move forward, so "the end index did not
    move" is "the remaining input is not shorter").  Each iteration
    shortens the remaining input, so a fuel above its length is never
    used up. *)
Fixpoint RepeatMatcher (m : Matcher) (greedy : bool) (fuel : nat)
         (x : MatchState) (c : Continuation) : option MatchState :=
  match fuel with
  | O => None
  | S fuel' =>
    let d : Continuation := fun y =>
      if length (remaining y) <? length (remaining x)
      then RepeatMatcher m greedy fuel' y c
      else None in
    if greedy then
      match m x d with
      | Some z => Some z
      | None => c x
      end
    else
      match c x with
      | Some z => Some z
      | None => m x d
      end
  end.

Fixpoint matcher (r : regex) : Matcher :=
  match r with
  | Empty => fun x c => c x
  | Class negated atoms => fun x c =>
      match remaining x with
      | ch :: tl =>
        if class_matches negated atoms ch
        then c (mkState (S (endIndex x)) tl (capture1 x))
        else None
      | [] => None
      end
  | Seq r1 r2 => fun x c => matcher r1 x (fun y => matcher r2 y c)
  | Alt r1 r2 => fun x c =>
      match matcher r1 x c with
      | Some z => Some z
      | None => matcher r2 x c
      end
  | Star greedy r1 => fun x c =>
      RepeatMatcher (matcher r1) greedy (S (length (remaining x))) x c
  | Group r1 => fun x c =>
      matcher r1 x (fun y =>
        c (mkState (endIndex y) (remaining y)
                   (Some (firstn (endIndex y - endIndex x) (remaining x)))))
  | NonCapture r1 => matcher r1
  | Lookahead r1 => fun x c =>
      match matcher r1 x (fun y => Some y) with
      | Some y => c (mkState (endIndex x) (remaining x) (capture1 y))
      | None => None
      end
  | AssertStart => fun x c =>
      if (endIndex x =? 0)%nat then c x else None
  end.

(** One attempt at position [i], where the input is [s] from [i] on. *)
Definition match_at (r : regex) (i : nat) (s : jsstring) : option MatchState :=
  matcher r (mkState i s None) (fun y => Some y).

(** RegExpBuiltinExec without the global and sticky flags: the first
    position, from the left, where the pattern matches.  The result is the
    position and the final state. *)
Fixpoint exec_from (r : regex) (i : nat) (s : jsstring)
  : option (nat * MatchState) :=
  match match_at r i s with
  | Some y => Some (i, y)
  | None =>
    match s with
    | [] => None
    | _ :: s' => exec_from r (S i) s'
    end
  end.

Definition exec (r : regex) (s : jsstring) : option (nat * MatchState) :=
  exec_from r 0 s.

(** [s.match(r)] for a pattern without the global flag: element 0 of the
    result array, the matched text, or [None] for [null]. *)
Definition string_match (s : jsstring) (r : regex) : option jsstring :=
  match exec r s with
  | Some (i, y) => Some (firstn (endIndex y - i) (skipn i s))
  | None => None
  end.

(** [s.replace(r, '$1')] for a pattern without the global flag: the first
    match is replaced by what group 1 captured; without a match the
    string is returned as it is. *)
Definition replace_by_group1 (s : jsstring) (r : regex) : jsstring :=
  match exec r s with
  | Some (i, y) =>
    firstn i s ++ match capture1 y with Some g => g | None => [] end
             ++ remaining y
  | None => s
  end.

(** [s.split(r)] for a pattern without capturing groups, after
    RegExp.prototype[@@split]: [q] runs over the positions; [cur] is the
    text between [p], the end of the last separator, and [q].  A match at
    [q] that ends at [p] is skipped ([q] moves on); any other match closes
    the piece and restarts both [p] and [q] at its end. *)
Fixpoint split_loop (r : regex) (fuel q : nat) (cur rest : jsstring)
  : list jsstring :=
  match fuel with
  | O => []
  | S fuel' =>
    match rest with
    | [] => [cur]
    | ch :: rest' =>
      match match_at r q rest with
      | None => split_loop r fuel' (S q) (cur ++ [ch]) rest'
      | Some y =>
        if ((endIndex y =? q)%nat && match cur with [] => true | _ => false end)%bool
        then split_loop r fuel' (S q) (cur ++ [ch]) rest'
        else cur :: split_loop r fuel' (endIndex y) [] (remaining y)
      end
    end
  end.

Definition split (s : jsstring) (r : regex) : list jsstring :=
  match s with
  | [] => match match_at r 0 [] with Some _ => [] | None => [[]] end
  | _ => split_loop r (S (2 * length s)) 0 [] s
  end.

End RegExp.

(** ** JSON values and [JSON.parse] *)

Module JSON.

(** A number is kept as the decimal the text denotes,
    [(-1)^negative * digits * 10^exponent]. *)
Inductive json :=
| JNull
| JBool (b : bool)
| JNumber (negative : bool) (digits : N) (exponent : Z)
| JString (s : jsstring)
| JArray (elements : list json)
| JObject (members : list (jsstring * json)).

(** JSON white space: tab, line feed, carriage return, space. *)
Definition is_ws (c : code_unit) : bool :=
  ((c =? 9) || (c =? 10) || (c =? 13) || (c =? 32))%N.

Fixpoint skip_ws (s : jsstring) : jsstring :=
  match s with
  | c :: s' => if is_ws c then skip_ws s' else s
  | [] => []
  end.

Definition is_digit (c : code_unit) : bool := ((48 <=? c) && (c <=? 57))%N.

Definition hex_value (c : code_unit) : option N :=
  if ((48 <=? c) && (c <=? 57))%N then Some (c - 48)%N
  else if ((65 <=? c) && (c <=? 70))%N then Some (c - 55)%N
  else if ((97 <=? c) && (c <=? 102))%N then Some (c - 87)%N
  else None.

Definition simple_escape (c : code_unit) : option code_unit :=
  if (c =? 34)%N then Some 34%N            (* escaped quote *)
  else if (c =? 92)%N then Some 92%N       (* \\ *)
  else if (c =? 47)%N then Some 47%N       (* \/ *)
  else if (c =? 98)%N then Some 8%N        (* \b *)
  else if (c =? 102)%N then Some 12%N      (* \f *)
  else if (c =? 110)%N then Some 10%N      (* \n *)
  else if (c =? 114)%N then Some 13%N      (* \r *)
  else if (c =? 116)%N then Some 9%N       (* \t *)
  else None.

(** The characters of a string after its opening quote, up to the closing
    one; the result is the string and the text after it. *)
Fixpoint parse_chars (s acc : jsstring) : option (jsstring * jsstring) :=
  match s with
  | [] => None
  | c :: s1 =>
    if (c =? 34)%N then Some (rev acc, s1)
    else if (c =? 92)%N then
      match s1 with
      | [] => None
      | e :: s2 =>
        if (e =? 117)%N then                 (* \uXXXX *)
          match s2 with
          | h1 :: h2 :: h3 :: h4 :: s3 =>
            match hex_value h1, hex_value h2, hex_value h3, hex_value h4 with
            | Some a, Some b, Some c', Some d =>
              parse_chars s3 ((a * 4096 + b * 256 + c' * 16 + d)%N :: acc)
            | _, _, _, _ => None
            end
          | _ => None
          end
        else
          match simple_escape e with
          | Some u => parse_chars s2 (u :: acc)
          | None => None
          end
      end
    else if (c <? 32)%N then None
    else parse_chars s1 (c :: acc)
  end.

(** A run of digits: its value appended to [acc], how many there were,
    and the text after it. *)
Fixpoint read_digits (s : jsstring) (acc : N) (count : nat)
  : N * nat * jsstring :=
  match s with
  | c :: s' =>
    if is_digit c then read_digits s' (acc * 10 + (c - 48))%N (S count)
    else (acc, count, s)
  | [] => (acc, count, [])
  end.

(** int: a single 0, or a digit 1-9 followed by digits. *)
Definition parse_int (s : jsstring) : option (N * jsstring) :=
  match s with
  | c :: s' =>
    if (c =? 48)%N then Some (0%N, s')
    else if is_digit c then
      match read_digits s' (c - 48)%N 1 with (n, _, r) => Some (n, r) end
    else None
  | [] => None
  end.

(** frac: nothing, or a point followed by at least one digit.  The result
    is the digits read so far with the fraction's appended, and the
    number of fraction digits. *)
Definition parse_frac (int : N) (s : jsstring) : option (N * nat * jsstring) :=
  match s with
  | c :: s' =>
    if (c =? 46)%N then
      match read_digits s' int 0 with
      | (_, O, _) => None
      | (n, k, r) => Some (n, k, r)
      end
    else Some (int, O, s)
  | [] => Some (int, O, [])
  end.

(** exp: nothing, or e/E, an optional sign and at least one digit. *)
Definition parse_exp (s : jsstring) : option (Z * jsstring) :=
  match s with
  | c :: s' =>
    if ((c =? 101) || (c =? 69))%N then
      let '(sign, s'') :=
        match s' with
        | d :: t =>
          if (d =? 45)%N then ((-1)%Z, t)
          else if (d =? 43)%N then (1%Z, t)
          else (1%Z, s')
        | [] => (1%Z, s')
        end in
      match read_digits s'' 0%N 0 with
      | (_, O, _) => None
      | (n, _, r) => Some ((sign * Z.of_N n)%Z, r)
      end
    else Some (0%Z, s)
  | [] => Some (0%Z, [])
  end.

Definition parse_number (s : jsstring) : option (json * jsstring) :=
  let '(neg, s0) :=
    match s with
    | c :: s' => if (c =? 45)%N then (true, s') else (false, s)
    | [] => (false, s)
    end in
  match parse_int s0 with
  | None => None
  | Some (i, s1) =>
    match parse_frac i s1 with
    | None => None
    | Some (m, k, s2) =>
      match parse_exp s2 with
      | None => None
      | Some (e, s3) => Some (JNumber neg m (e - Z.of_nat k)%Z, s3)
      end
    end
  end.

(** [s] starts with the text [lit]: what follows it. *)
Fixpoint strip_prefix (lit s : jsstring) : option jsstring :=
  match lit, s with
  | [], _ => Some s
  | a :: lit', b :: s' => if (a =? b)%N then strip_prefix lit' s' else None
  | _ :: _, [] => None
  end.

(** Recursive descent.  Every function expects its input with the leading
    white space already skipped.  A nested call comes with a shorter
    text, or, from [parse_elements] to [parse_value], with the same text
    once: a fuel above twice the length of the text is never used up
    (see [JSONFacts.parse_value_fuel]). *)
Fixpoint parse_value (fuel : nat) (s : jsstring) : option (json * jsstring) :=
  match fuel with
  | O => None
  | S fuel' =>
    match s with
    | [] => None
    | c :: s' =>
      if (c =? 123)%N then                               (* { *)
        match skip_ws s' with
        | d :: t =>
          if (d =? 125)%N then Some (JObject [], t)
          else parse_members fuel' (d :: t) []
        | [] => None
        end
      else if (c =? 91)%N then                           (* [ *)
        match skip_ws s' with
        | d :: t =>
          if (d =? 93)%N then Some (JArray [], t)
          else parse_elements fuel' (d :: t) []
        | [] => None
        end
      else if (c =? 34)%N then
        match parse_chars s' [] with
        | Some (str, r) => Some (JString str, r)
        | None => None
        end
      else if (c =? 116)%N then
        option_map (fun r => (JBool true, r)) (strip_prefix (js:"true") s)
      else if (c =? 102)%N then
        option_map (fun r => (JBool false, r)) (strip_prefix (js:"false") s)
      else if (c =? 110)%N then
        option_map (fun r => (JNull, r)) (strip_prefix (js:"null") s)
      else parse_number s
    end
  end

with parse_members (fuel : nat) (s : jsstring) (acc : list (jsstring * json))
  : option (json * jsstring) :=
  match fuel with
  | O => None
  | S fuel' =>
    match s with
    | c :: s1 =>
      if (c =? 34)%N then
        match parse_chars s1 [] with
        | None => None
        | Some (key, s2) =>
          match skip_ws s2 with
          | colon :: s3 =>
            if (colon =? 58)%N then
              match parse_value fuel' (skip_ws s3) with
              | None => None
              | Some (v, s4) =>
                match skip_ws s4 with
                | d :: s5 =>
                  if (d =? 125)%N then Some (JObject (acc ++ [(key, v)]), s5)
                  else if (d =? 44)%N
                  then parse_members fuel' (skip_ws s5) (acc ++ [(key, v)])
                  else None
                | [] => None
                end
              end
            else None
          | [] => None
          end
        end
      else None
    | [] => None
    end
  end

with parse_elements (fuel : nat) (s : jsstring) (acc : list json)
  : option (json * jsstring) :=
  match fuel with
  | O => None
  | S fuel' =>
    match parse_value fuel' s with
    | None => None
    | Some (v, s1) =>
      match skip_ws s1 with
      | d :: s2 =>
        if (d =? 93)%N then Some (JArray (acc ++ [v]), s2)
        else if (d =? 44)%N
        then parse_elements fuel' (skip_ws s2) (acc ++ [v])
        else None
      | [] => None
      end
    end
  end.

(** [JSON.parse(text)]: [None] stands for the SyntaxError it throws. *)
Definition parse (text : jsstring) : option json :=
  match parse_value (S (2 * length text)) (skip_ws text) with
  | Some (v, r) =>
    match skip_ws r with
    | [] => Some v
    | _ :: _ => None
    end
  | None => None
  end.

End JSON.

(** ** JavaScript values, property reads, truthiness *)

Module JS.
Import JSON.

(** The values the component handles: [undefined] and what [JSON.parse]
    builds (a string literal of the code is a [JString]). *)
Inductive value :=
| Undefined
| Json (j : json).

Definition Str (s : jsstring) : value := Json (JString s).

(** An evaluation completes normally or throws. *)
Inductive completion (A : Type) :=
| Normal (a : A)
| Throw.
Arguments Normal {A} a.
Arguments Throw {A}.

(** An own property of an object built by [JSON.parse]: of two members
    with the same key the later one wins. *)
Fixpoint own_property (key : jsstring) (members : list (jsstring * json))
  : value :=
  match members with
  | [] => Undefined
  | (k, v) :: rest =>
    match own_property key rest with
    | Undefined => if jsstring_eqb k key then Json v else Undefined
    | found => found
    end
  end.

(** [o.key] for the property names the source reads (name, description,
    price, url, image_url, ingredients, advantages, suitability, questions,
    text), none of which a prototype provides: reading from [null] throws
    a TypeError, an object gives its own property, every other value
    gives [undefined]. *)
Definition Get (o : json) (key : jsstring) : completion value :=
  match o with
  | JNull => Throw
  | JObject members => Normal (own_property key members)
  | _ => Normal Undefined
  end.

(** The Number value of the decimal [digits * 10^exponent] is zero when
    the decimal is zero or rounds to zero, that is when it is at most
    2^-1075, half the least positive double. *)
Definition number_is_zero (digits : N) (exponent : Z) : bool :=
  ((digits =? 0)%N
   || ((exponent <? 0)%Z
       && (Z.of_N digits * 2 ^ 1075 <=? 10 ^ (- exponent))%Z))%bool.

(** ToBoolean *)
Definition ToBoolean (v : value) : bool :=
  match v with
  | Undefined => false
  | Json JNull => false
  | Json (JBool b) => b
  | Json (JNumber _ digits exponent) => negb (number_is_zero digits exponent)
  | Json (JString s) => match s with [] => false | _ :: _ => true end
  | Json (JArray _) => true
  | Json (JObject _) => true
  end.

(** [a || b] *)
Definition or_else (a b : value) : value := if ToBoolean a then a else b.

End JS.

(** ** The Chat component *)

Module Chat.
Import RegExp JSON JS.

Inductive Role := user | assistant.

(** [content] is declared a string; at run time it holds whatever the
    response gave. *)
Record ChatMessage := mkMessage {
  role : Role;
  content : value
}.

(** The product handed to the product card. *)
Record Product := mkProduct {
  name : value;
  description : value;
  price : value;
  url : value;
  image_url : value;
  ingredients : value;
  advantages : value;
  suitability : value;
  questions : value
}.

(** The two variants of the component differ in the messages the
    conversation starts with (and is reset to) and in the price shown
    when the product has none. *)
Record Variant := mkVariant {
  initialMessages : list ChatMessage;   (* the argument of useState *)
  resetMessages : list ChatMessage;     (* what handleReset sets *)
  pricePlaceholder : jsstring
}.

(** The greeting as written in [useState], and as written in
    [handleReset]. *)
Definition greeting_text : jsstring :=
  js:"👋 Hi! I'm kNOwLI, your personal beauty advisor. I'm here to help you discover the perfect L'Oréal products for your needs. Whether you're looking for skincare, haircare, or makeup recommendations, I'll guide you to the best solutions. What can I help you with today?".

Definition reset_greeting_text : jsstring :=
  js:"👋 Hi! I'm kNOwLI, your personal beauty advisor. I'm here to help you discover the perfect L'Oréal products for your needs. Whether you're looking for skincare, haircare, or makeup recommendations, I'll guide you to the best solutions. What can I help you with today?".

Definition greeting : ChatMessage := mkMessage assistant (Str greeting_text).

Definition empty_start : Variant := mkVariant [] [] (js:"€XX.XX").

Definition with_greeting : Variant :=
  mkVariant [greeting] [mkMessage assistant (Str reset_greeting_text)]
            (js:"€18.99").

(** *** extractProducts *)

(** [^{}] *)
Definition no_brace : regex := Class true [CChar LBRACE; CChar RBRACE].

(** (?:[^{}]|(?:\{[^{}]*\}))* *)
Definition body_star : regex :=
  Star true
       (NonCapture
          (Alt no_brace
               (NonCapture
                  (Seq (Chr LBRACE)
                       (Seq (Star true no_brace) (Chr RBRACE)))))).

(** /\{(?:[^{}]|(?:\{[^{}]*\}))*\}/ *)
Definition jsonRegex : regex :=
  Seq (Chr LBRACE) (Seq body_star (Chr RBRACE)).

Definition product_of (v : Variant) (productData : json)
  : completion Product :=
  match Get productData (js:"name"), Get productData (js:"description"),
        Get productData (js:"price"), Get productData (js:"url"),
        Get productData (js:"image_url"), Get productData (js:"ingredients"),
        Get productData (js:"advantages"), Get productData (js:"suitability"),
        Get productData (js:"questions") with
  | Normal n, Normal d, Normal p, Normal u, Normal i, Normal g, Normal a,
    Normal s, Normal q =>
    Normal
      {| name := n;
         description := d;
         price := or_else p (Str (pricePlaceholder v));
         url := or_else u (Str (js:"#"));
         image_url := or_else i (Str []);
         ingredients := or_else g (Json (JArray []));
         advantages := or_else a (Json (JArray []));
         suitability := or_else s (Json (JArray []));
         questions := or_else q (Json (JArray [])) |}
  | _, _, _, _, _, _, _, _, _ => Throw
  end.

(** The body of the [try]: [Normal None] is leaving the [if] without a
    match, [Throw] the SyntaxError of [JSON.parse] or a TypeError. *)
Definition extractProducts_try (v : Variant) (text : jsstring)
  : completion (option (list Product)) :=
  match string_match text jsonRegex with
  | Some jsonMatch =>
    match JSON.parse jsonMatch with
    | None => Throw
    | Some productData =>
      match product_of v productData with
      | Normal p => Normal (Some [p])
      | Throw => Throw
      end
    end
  | None => Normal None
  end.

(** [None] is [null]: the [catch] logs what was thrown, and the function
    ends in [return null] whenever the [try] did not return. *)
Definition extractProducts (v : Variant) (text : jsstring)
  : option (list Product) :=
  match extractProducts_try v text with
  | Normal (Some products) => Some products
  | Normal None => None
  | Throw => None
  end.

(** The image the product card of the greeting variant shows:
    [product.image_url || defaultImageUrl]. *)
Definition defaultImageUrl : jsstring :=
  js:"https://encrypted-tbn0.gstatic.com/images?q=tbn:ANd9GcTydlkOWWEOacWIaFKSdUMi8eHDLuRe6-D7rnk4x5EHaggA-KpmcKTkEq4hmr73I_sZ4wE&usqp=CAU".

Definition ProductCard_image (product : Product) : value :=
  or_else (image_url product) (Str defaultImageUrl).

(** *** formatResponseText *)

(** The code units of the class [👩🏼‍🔬🌟✨💫]: without the u flag the
    class holds the surrogates of its emojis one by one. *)
Definition markers : jsstring := js:"👩🏼‍🔬🌟✨💫".

(** ## [👩🏼‍🔬🌟✨💫] *)
Definition header : regex := Seq (Lit (js:"## ")) (ClassOf markers).

(** [\s\S] *)
Definition any_char : regex := Class false [CSpace; CNonSpace].

(** /^[\s\S]*?(## [👩🏼‍🔬🌟✨💫])/ *)
Definition stripRegex : regex :=
  Seq AssertStart (Seq (Star false any_char) (Group header)).

(** /(?=## [👩🏼‍🔬🌟✨💫])/ *)
Definition splitRegex : regex := Lookahead header.

(** What one section shows: the trimmed title and the bullet points. *)
Record SectionView := mkSection {
  title : jsstring;
  bulletPoints : list jsstring
}.

Definition nonblank (s : jsstring) : bool :=
  match trim s with [] => false | _ :: _ => true end.

(** The callback of [sections.map]: [None] is [null] (nothing is shown).
    [split] gives at least one piece, the title. *)
Definition render_section (section : jsstring) : option SectionView :=
  if negb (nonblank section) then None
  else
    let lines := split_on LF section in
    let title := hd [] lines in
    let content := tl lines in
    let bulletPoints :=
      map trim (filter nonblank (split_on BULLET (join [LF] content))) in
    Some (mkSection (trim title) bulletPoints).

Definition formatResponseText (text : jsstring) : list (option SectionView) :=
  let cleanedText := trim (replace_by_group1 text stripRegex) in
  let sections := RegExp.split cleanedText splitRegex in
  map render_section sections.

(** The sections that are shown. *)
Fixpoint shown (l : list (option SectionView)) : list SectionView :=
  match l with
  | [] => []
  | Some s :: l' => s :: shown l'
  | None :: l' => shown l'
  end.

(** *** State and handlers *)

Record ChatState := mkChat {
  messages : list ChatMessage;
  input : jsstring;
  isLoading : bool
}.

(** The state at page load. *)
Definition initial (v : Variant) : ChatState :=
  mkChat (initialMessages v) [] false.

(** What [fetch] does: it rejects (network failure), or resolves with a
    response, whatever its status; [ok] is [response.ok], which the code
    does not read, [body] the text of the response body. *)
Inductive FetchResult :=
| NetworkError
| Response (ok : bool) (body : jsstring).

(** The [messages] field of the request body. *)
Definition Request := list ChatMessage.

Definition fallback : ChatMessage :=
  mkMessage assistant
            (Str (js:"Sorry, there was an error processing your request.")).

(** handleSubmit up to the [await]: the state it leaves and the request it
    sends, if any. *)
Definition handleSubmit_send (st : ChatState) : ChatState * option Request :=
  if (negb (ToBoolean (Str (trim (input st)))) || isLoading st)%bool
  then (st, None)
  else
    let userMessage := mkMessage user (Str (input st)) in
    (mkChat (messages st ++ [userMessage]) [] true,
     Some (messages st ++ [userMessage])).

(** handleSubmit from the [await] on.  [response.json()] rejects when the
    body is not JSON.  The update [prev => [...prev, {role, content:
    data.text}]] reads [data.text] when React runs it, outside the [try]:
    with [data] null the TypeError is not caught ([Throw]). *)
Definition handleSubmit_receive (res : FetchResult) (st : ChatState)
  : completion ChatState :=
  let failed := mkChat (messages st ++ [fallback]) (input st) false in
  match res with
  | NetworkError => Normal failed
  | Response _ body =>
    match JSON.parse body with
    | None => Normal failed
    | Some data =>
      match Get data (js:"text") with
      | Normal text =>
        Normal (mkChat (messages st ++ [mkMessage assistant text])
                       (input st) false)
      | Throw => Throw
      end
    end
  end.

(** A whole submission, nothing else happening in between. *)
Definition handleSubmit (res : FetchResult) (st : ChatState)
  : completion ChatState * option Request :=
  match handleSubmit_send st with
  | (st', None) => (Normal st', None)
  | (st', Some req) => (handleSubmit_receive res st', Some req)
  end.

Definition handleReset (v : Variant) (st : ChatState) : ChatState :=
  mkChat (resetMessages v) (input st) (isLoading st).

End Chat.

(** ** The texts the statements speak of *)

Module Shapes.
Import RegExp JSON JS Chat.

Definition is_brace (c : code_unit) : bool :=
  ((c =? LBRACE) || (c =? RBRACE))%N.

(** No brace at all in [s]. *)
Definition brace_free (s : jsstring) : bool :=
  forallb (fun c => negb (is_brace c)) s.

(** No opening brace in [s]. *)
Definition no_lbrace (s : jsstring) : bool :=
  forallb (fun c => negb (c =? LBRACE)%N) s.

(** The content of a brace-delimited object whose braces nest one level
    at most: runs of text without braces, and brace pairs around text
    without braces. *)
Inductive piece :=
| Plain (s : jsstring)
| Nested (s : jsstring).

Definition piece_text (p : piece) : jsstring :=
  match p with
  | Plain s => s
  | Nested s => LBRACE :: s ++ [RBRACE]
  end.

Definition piece_ok (p : piece) : bool :=
  match p with
  | Plain s => brace_free s
  | Nested s => brace_free s
  end.

Definition content_text (ps : list piece) : jsstring :=
  flat_map piece_text ps.

Definition object_text (ps : list piece) : jsstring :=
  LBRACE :: content_text ps ++ [RBRACE].

(** The optional fields of a product. *)
Definition optional_fields : list jsstring :=
  [js:"price"; js:"url"; js:"image_url"; js:"ingredients"; js:"advantages";
   js:"suitability"; js:"questions"].

(** The object with members [ms] has none of the optional fields. *)
Definition is_undefined (v : value) : bool :=
  match v with Undefined => true | Json _ => false end.

Definition lacks_optional_fields (ms : list (jsstring * json)) : bool :=
  forallb (fun k => is_undefined (own_property k ms)) optional_fields.

(** [s] starts with a header the code recognizes: "## " and one code unit
    of the class. *)
Definition starts_with_header (s : jsstring) : bool :=
  match s with
  | a :: b :: c :: u :: _ =>
    ((a =? 35) && (b =? 35) && (c =? 32))%N
    && existsb (fun m => (u =? m)%N) markers
  | _ => false
  end.

(** A recognized header occurs somewhere in [s]. *)
Fixpoint has_header (s : jsstring) : bool :=
  starts_with_header s
  || match s with
     | [] => false
     | _ :: s' => has_header s'
     end.

(** The text from its first recognized header on, if it has one. *)
Fixpoint from_first_header (s : jsstring) : option jsstring :=
  if starts_with_header s then Some s
  else
    match s with
    | [] => None
    | _ :: s' => from_first_header s'
    end.

(** The text without what comes before its first recognized header; the
    whole text when it has none. *)
Definition strip_preamble (s : jsstring) : jsstring :=
  match from_first_header s with
  | Some t => t
  | None => s
  end.

(** The text cut before every recognized header, except one at the very
    start of a piece; [cur] is the piece being read. *)
Fixpoint cut_at_headers (cur s : jsstring) : list jsstring :=
  match s with
  | [] => [cur]
  | ch :: s' =>
    if (starts_with_header s
        && match cur with [] => false | _ :: _ => true end)%bool
    then cur :: cut_at_headers [ch] s'
    else cut_at_headers (cur ++ [ch]) s'
  end.

(** Where [[\s\S]*?] followed by the header group stops: at the first
    recognized header, which the group captures. *)
Fixpoint first_header_state (i : nat) (s : jsstring) : option MatchState :=
  if starts_with_header s
  then Some (mkState (i + 4) (skipn 4 s) (Some (firstn 4 s)))
  else
    match s with
    | [] => None
    | _ :: s' => first_header_state (S i) s'
    end.

(** Empty or white space only. *)
Definition blank (s : jsstring) : bool := forallb is_space s.

(** The four markers the headers are meant to start with: the scientist
    (a sequence of four code points), the star, the sparkles, the dizzy
    symbol. *)
Definition documented_markers : list jsstring :=
  [js:"👩🏼‍🔬"; js:"🌟"; js:"✨"; js:"💫"].

Fixpoint is_prefix (p s : jsstring) : bool :=
  match p, s with
  | [], _ => true
  | a :: p', b :: s' => (a =? b)%N && is_prefix p' s'
  | _ :: _, [] => false
  end.

(** [s] starts with "## " and one of the four markers. *)
Definition starts_with_documented_header (s : jsstring) : bool :=
  existsb (fun m => is_prefix (js:"## " ++ m) s) documented_markers.

(** The request failed as far as the code can tell: [fetch] rejected, or
    the body of the response does not decode as JSON. *)
Definition request_failed (res : FetchResult) : bool :=
  match res with
  | NetworkError => true
  | Response _ body =>
    match JSON.parse body with
    | None => true
    | Some _ => false
    end
  end.

End Shapes.

(** ** Conversions of ECMAScript that the product cards rely on *)

Module JSMore.
Import JSON JS.

(** Whether ToString of a value built by [JSON.parse] returns.  An
    object is converted by the [toString] of Object.prototype unless a
    member of its own named toString hides it: a member is never
    callable, and [valueOf] gives no primitive, so the conversion throws
    a TypeError.  An array is converted by [join], which converts its
    elements (null apart) the same way. *)
Fixpoint coercible (j : json) : bool :=
  match j with
  | JObject members =>
    match own_property (js:"toString") members with
    | Undefined => true
    | Json _ => false
    end
  | JArray elements => forallb coercible elements
  | _ => true
  end.

Definition digit_below (radix : N) (c : code_unit) : bool :=
  match hex_value c with
  | Some d => (d <? radix)%N
  | None => false
  end.

Definition nonzero_digit (c : code_unit) : bool :=
  match hex_value c with
  | Some d => (0 <? d)%N
  | None => false
  end.

(** StringToNumber on a NonDecimalIntegerLiteral (0x, 0o or 0b in either
    case, then digits of the radix): whether the number is above zero;
    [None] when the text is no such literal. *)
Definition non_decimal_positive (s : jsstring) : option bool :=
  match s with
  | z :: p :: ((_ :: _) as ds) =>
    if (z =? 48)%N then
      let radix :=
        if ((p =? 120) || (p =? 88))%N then Some 16%N
        else if ((p =? 111) || (p =? 79))%N then Some 8%N
        else if ((p =? 98) || (p =? 66))%N then Some 2%N
        else None in
      match radix with
      | Some r =>
        if forallb (digit_below r) ds then Some (existsb nonzero_digit ds)
        else None
      | None => None
      end
    else None
  | _ => None
  end.

(** StringToNumber on a StrDecimalLiteral: an optional sign, then
    Infinity, or digits with an optional point and an optional exponent
    (at least one digit before or after the point). *)
Definition decimal_positive (s : jsstring) : option bool :=
  let '(negative, u) :=
    match s with
    | c :: r =>
      if (c =? 43)%N then (false, r)
      else if (c =? 45)%N then (true, r)
      else (false, s)
    | [] => (false, s)
    end in
  if jsstring_eqb u (js:"Infinity") then Some (negb negative)
  else
    let '(int, ni, r1) := read_digits u 0%N 0 in
    let '(mantissa, nf, r2) :=
      match r1 with
      | c :: r => if (c =? 46)%N then read_digits r int 0 else (int, O, r1)
      | [] => (int, O, r1)
      end in
    match (ni + nf)%nat with
    | O => None
    | S _ =>
      match parse_exp r2 with
      | Some (e, []) =>
        Some (negb negative
              && negb (number_is_zero mantissa (e - Z.of_nat nf)%Z))
      | _ => None
      end
    end.

(** [ToNumber(s) > 0] for a string: white space around the literal is
    skipped, the empty text is 0, and a text that is no literal is NaN. *)
Definition string_positive (s : jsstring) : bool :=
  match trim s with
  | [] => false
  | t =>
    match decimal_positive t with
    | Some b => b
    | None =>
      match non_decimal_positive t with
      | Some b => b
      | None => false
      end
    end
  end.

(** [ToNumber(ToString(j)) > 0] where ToString returns; for null, the
    string [join] puts for it (the empty one).  The string of a number
    denotes the same number, the string of an array of two or more
    elements holds a comma and denotes none. *)
Fixpoint joined_positive (j : json) : bool :=
  match j with
  | JNull => false
  | JBool _ => false
  | JNumber negative digits exponent =>
    negb negative && negb (number_is_zero digits exponent)
  | JString s => string_positive s
  | JArray elements =>
    match elements with
    | [x] => joined_positive x
    | _ => false
    end
  | JObject _ => false
  end.

(** [v > 0] *)
Definition greater_than_zero (v : value) : completion bool :=
  match v with
  | Undefined => Normal false
  | Json j =>
    if coercible j then
      Normal match j with
             | JNull => false
             | JBool b => b
             | _ => joined_positive j
             end
    else Throw
  end.

(** [j.length] for a value other than null: the length of a string or
    of an array, the member of that name of an object, [undefined] for
    a number or a boolean. *)
Definition length_of (j : json) : value :=
  match j with
  | JString s => Json (JNumber false (N.of_nat (length s)) 0)
  | JArray elements => Json (JNumber false (N.of_nat (length elements)) 0)
  | JObject members => own_property (js:"length") members
  | _ => Undefined
  end.

End JSMore.

(** ** What React DOM makes of the values the components hand it *)

Module React.
Import JSON JS JSMore.

(** The text nodes a child expression leaves: a number is shown as its
    string (kept here as the number). *)
Inductive Node :=
| TextNode (s : jsstring)
| NumberNode (negative : bool) (digits : N) (exponent : Z).

(** A value in child position.  Nothing is shown for null, a boolean
    and the empty string; the elements of an array are shown one after
    the other; an object that is no element (what JSON.parse builds
    never is one) makes React throw: objects are not valid as a React
    child. *)
Fixpoint child_nodes (j : json) : completion (list Node) :=
  match j with
  | JNull => Normal []
  | JBool _ => Normal []
  | JNumber negative digits exponent =>
    Normal [NumberNode negative digits exponent]
  | JString s =>
    Normal match s with
           | [] => []
           | _ :: _ => [TextNode s]
           end
  | JArray elements =>
    (fix children (l : list json) : completion (list Node) :=
       match l with
       | [] => Normal []
       | x :: l' =>
         match child_nodes x, children l' with
         | Normal a, Normal b => Normal (a ++ b)
         | _, _ => Throw
         end
       end) elements
  | JObject _ => Throw
  end.

Definition renderChild (v : value) : completion (list Node) :=
  match v with
  | Undefined => Normal []
  | Json j => child_nodes j
  end.

(** A value given to an attribute (href, src, alt): React writes its
    string, or leaves the attribute out for [undefined], null and a
    boolean; the conversion to a string can throw. *)
Definition attribute (v : value) : completion value :=
  match v with
  | Undefined => Normal v
  | Json j => if coercible j then Normal v else Throw
  end.

End React.

(** ** What is rendered for a message *)

Module Render.
Import RegExp JSON JS Chat JSMore React.

(** The product card next to the greeting variant of the component:
    the link, the image, and the name, description and price as
    children. *)
Module ImageCard.

Record View := mkView {
  href : value;
  src : value;
  alt : value;
  h3 : list Node;
  p : list Node;
  span : list Node
}.

Definition ProductCard (product : Product) : completion View :=
  match attribute (url product), attribute (ProductCard_image product),
        attribute (name product), renderChild (name product),
        renderChild (description product), renderChild (price product) with
  | Normal a, Normal i, Normal t, Normal n, Normal d, Normal c =>
    Normal (mkView a i t n d c)
  | _, _, _, _, _, _ => Throw
  end.

End ImageCard.

(** The product card of components/ProductCard.tsx: the link, the name
    and the description, the list of ingredients, and the price. *)
Module IngredientsCard.

(** What stands in the place of the list: the nodes of the value of
    [product.ingredients && product.ingredients.length > 0 && (...)]
    when it is not the list (a falsy [ingredients] itself, or false),
    or the items of the list. *)
Inductive Ingredients :=
| NoList (nodes : list Node)
| KeyIngredients (items : list (list Node)).

Fixpoint items_of (l : list json) : completion (list (list Node)) :=
  match l with
  | [] => Normal []
  | ingredient :: l' =>
    match child_nodes ingredient, items_of l' with
    | Normal li, Normal lis => Normal (li :: lis)
    | _, _ => Throw
    end
  end.

(** On a truthy value without a callable [map] (a string, an object)
    whose [length] is above zero, the call of [map] throws a
    TypeError. *)
Definition ingredients_view (g : value) : completion Ingredients :=
  if ToBoolean g then
    match g with
    | Undefined => Normal (NoList [])
    | Json j =>
      match greater_than_zero (length_of j) with
      | Throw => Throw
      | Normal false => Normal (NoList [])
      | Normal true =>
        match j with
        | JArray elements =>
          match items_of elements with
          | Normal items => Normal (KeyIngredients items)
          | Throw => Throw
          end
        | _ => Throw
        end
      end
    end
  else
    match renderChild g with
    | Normal nodes => Normal (NoList nodes)
    | Throw => Throw
    end.

Record View := mkView {
  href : value;
  h3 : list Node;
  p : list Node;
  ul : Ingredients;
  span : list Node
}.

Definition ProductCard (product : Product) : completion View :=
  match attribute (url product), renderChild (name product),
        renderChild (description product),
        ingredients_view (ingredients product),
        renderChild (price product) with
  | Normal a, Normal n, Normal d, Normal g, Normal c =>
    Normal (mkView a n d g c)
  | _, _, _, _, _ => Throw
  end.

End IngredientsCard.

Section Message.

(** The component imported as ProductCard and what it renders. *)
Variable CardView : Type.
Variable Card : Product -> completion CardView.

(** What one message shows: for a user message its content, for an
    assistant message the product cards
    ([extractProducts(message.content)?.map(...)], nothing for [null])
    and the formatted sections. *)
Inductive MessageView :=
| UserView (content : list Node)
| AssistantView (cards : option (list CardView))
                (sections : list (option SectionView)).

(** The cards, one after the other. *)
Fixpoint renderCards (products : list Product)
  : completion (list CardView) :=
  match products with
  | [] => Normal []
  | product :: rest =>
    match Card product, renderCards rest with
    | Normal card, Normal cards => Normal (card :: cards)
    | _, _ => Throw
    end
  end.

Definition renderProducts (products : option (list Product))
  : completion (option (list CardView)) :=
  match products with
  | None => Normal None
  | Some l =>
    match renderCards l with
    | Normal cards => Normal (Some cards)
    | Throw => Throw
    end
  end.

(** [content] need not be a string at run time.  On anything else
    [text.match] throws inside the [try] of extractProducts, which
    returns [null], and [text.replace] throws in formatResponseText,
    which has no [try]: rendering the message throws.  It also throws
    when a product card does. *)
Definition renderMessage (v : Variant) (message : ChatMessage)
  : completion MessageView :=
  match role message with
  | user =>
    match renderChild (content message) with
    | Normal nodes => Normal (UserView nodes)
    | Throw => Throw
    end
  | assistant =>
    match content message with
    | Json (JString text) =>
      match renderProducts (extractProducts v text) with
      | Normal cards => Normal (AssistantView cards (formatResponseText text))
      | Throw => Throw
      end
    | _ => Throw
    end
  end.

(** [messages.map(...)]: the views in order; it throws when one does. *)
Fixpoint renderMessages (v : Variant) (messages : list ChatMessage)
  : completion (list MessageView) :=
  match messages with
  | [] => Normal []
  | message :: rest =>
    match renderMessage v message with
    | Throw => Throw
    | Normal view =>
      match renderMessages v rest with
      | Throw => Throw
      | Normal views => Normal (view :: views)
      end
    end
  end.

End Message.

End Render.

(** ** A session: the handlers run one after the other *)

Module Session.
Import RegExp JSON JS Chat.

(** What happens on the page: the input changes ([onChange], which calls
    [setInput(e.target.value)]), the form is submitted (handleSubmit up
    to its [await]), the pending [fetch] settles (handleSubmit from the
    [await] on), the reset button is clicked. *)
Inductive Event :=
| Change (text : jsstring)
| SubmitForm
| Settle (res : FetchResult)
| Reset.

(** The state of the component and the request that was sent and has
    not settled yet. *)
Record Page := mkPage {
  chat : ChatState;
  pending : option Request
}.

Definition start (v : Variant) : Page := mkPage (initial v) None.

(** One event.  A [fetch] settles only if one is pending.  [Throw] is
    the uncaught TypeError of the update of handleSubmit. *)
Definition step (v : Variant) (p : Page) (e : Event) : completion Page :=
  match e with
  | Change text =>
    Normal (mkPage (mkChat (messages (chat p)) text (isLoading (chat p)))
                   (pending p))
  | SubmitForm =>
    match handleSubmit_send (chat p) with
    | (st, Some req) => Normal (mkPage st (Some req))
    | (st, None) => Normal (mkPage st (pending p))
    end
  | Settle res =>
    match pending p with
    | None => Normal p
    | Some _ =>
      match handleSubmit_receive res (chat p) with
      | Normal st => Normal (mkPage st None)
      | Throw => Throw
      end
    end
  | Reset => Normal (mkPage (handleReset v (chat p)) (pending p))
  end.

Fixpoint run (v : Variant) (p : Page) (events : list Event)
  : completion Page :=
  match events with
  | [] => Normal p
  | e :: events' =>
    match step v p e with
    | Normal p' => run v p' events'
    | Throw => Throw
    end
  end.

(** A request is pending. *)
Definition in_flight (p : Page) : bool :=
  match pending p with
  | Some _ => true
  | None => false
  end.

(** The last message is a user message. *)
Definition last_is_user (l : list ChatMessage) : bool :=
  match rev l with
  | m :: _ => match role m with user => true | assistant => false end
  | [] => false
  end.

(** Assistant messages only. *)
Definition assistant_only (l : list ChatMessage) : bool :=
  forallb (fun m => match role m with assistant => true | user => false end)
          l.

(** No two user messages next to each other. *)
Fixpoint no_user_twice (l : list ChatMessage) : bool :=
  match l with
  | [] => true
  | m :: l' =>
    match role m, l' with
    | user, m' :: _ =>
      match role m' with
      | user => false
      | assistant => no_user_twice l'
      end
    | _, _ => no_user_twice l'
    end
  end.

(** What every step keeps: no two user messages in a row, and a user
    message at the end only while a request is in flight. *)
Definition alternating (st : ChatState) : Prop :=
  no_user_twice (messages st) = true
  /\ (last_is_user (messages st) = true -> isLoading st = true).

End Session.

(** ** The script that fetches the reviews of all products *)

Module FetchReviews.

(** What [bvdl reviews ... > "$OUTPUT_FILE" 2>/dev/null] did for one
    product: it failed (or the file could not be written), or it
    succeeded and left a file in which [wc -l] counts [lines] lines. *)
Inductive Fetch :=
| Failed
| Fetched (lines : nat).

(** The counters of the summary. *)
Record Counters := mkCounters {
  SUCCESS_COUNT : nat;
  ERROR_COUNT : nat;
  REVIEW_COUNT : nat;
  FILES_CREATED : nat
}.

Section Directory.

(** The files of the file system, and the file that the path
    [$OUTPUT_DIR/$PRODUCT_ID.jsonl] names for a product id.  Two ids
    can name one file (a and ./a, or ids that differ in case on a file
    system that ignores case). *)
Variable File : Type.
Variable File_eq_dec : forall f f' : File, {f = f'} + {f <> f'}.
Variable OUTPUT_FILE : string -> File.

(** For a file, the number of its lines, or [None] when it does not
    exist. *)
Definition Files := File -> option nat.

(** The redirection and [rm -f] act on the file the path names;
    [rm -f] is taken to succeed, as it does on a regular file and on a
    missing one in a directory the script writes to. *)
Definition write (files : Files) (file : File) (content : option nat)
  : Files :=
  fun file' => if File_eq_dec file' file then content else files file'.

(** The body of the loop for the product [id]. *)
Definition process (state : Counters * Files) (item : string * Fetch)
  : Counters * Files :=
  let '(c, files) := state in
  let '(id, fetch) := item in
  match fetch with
  | Fetched lines =>
    if 0 <? lines
    then (mkCounters (SUCCESS_COUNT c + 1) (ERROR_COUNT c)
                     (REVIEW_COUNT c + lines) (FILES_CREATED c + 1),
          write files (OUTPUT_FILE id) (Some lines))
    else (mkCounters (SUCCESS_COUNT c + 1) (ERROR_COUNT c)
                     (REVIEW_COUNT c) (FILES_CREATED c),
          write files (OUTPUT_FILE id) None)   (* rm -f "$OUTPUT_FILE" *)
  | Failed =>
    (mkCounters (SUCCESS_COUNT c) (ERROR_COUNT c + 1)
                (REVIEW_COUNT c) (FILES_CREATED c),
     write files (OUTPUT_FILE id) None)        (* rm -f "$OUTPUT_FILE" *)
  end.

(** The loop over PRODUCT_IDS, each id with what its fetch did; the
    counters start at 0. *)
Definition fetch_all (files : Files) (items : list (string * Fetch))
  : Counters * Files :=
  fold_left process items (mkCounters 0 0 0 0, files).





End Directory.

(** TOTAL *)
Definition TOTAL (items : list (string * Fetch)) : nat := length items.

(** The products whose fetch left reviews. *)
Definition with_reviews (item : string * Fetch) : bool :=
  match snd item with
  | Fetched lines => 0 <? lines
  | Failed => false
  end.

Definition lines_of (item : string * Fetch) : nat :=
  match snd item with
  | Fetched lines => lines
  | Failed => 0
  end.

(** The products whose fetch succeeded. *)
Definition fetched (item : string * Fetch) : bool :=
  match snd item with
  | Fetched _ => true
  | Failed => false
  end.



End FetchReviews.

(** ** More texts the statements speak of *)

Module Shapes2.
Import RegExp JSON JS Chat Shapes.

(** No closing brace in [s]. *)
Definition no_rbrace (s : jsstring) : bool :=
  forallb (fun c => negb (c =? RBRACE)%N) s.

(** The value is a string. *)
Definition is_string (v : value) : bool :=
  match v with
  | Json (JString _) => true
  | _ => false
  end.

End Shapes2.

(** * Properties *)

(** ** The matcher *)

Module RegExpFacts.
Import RegExp.

(** The equations of the matcher. *)
Lemma matcher_Class negated atoms i ch tl cap c :
  matcher (Class negated atoms) (mkState i (ch :: tl) cap) c
  = if class_matches negated atoms ch then c (mkState (S i) tl cap) else None.
Proof. reflexivity. Qed.

Lemma matcher_Class_nil negated atoms i cap c :
  matcher (Class negated atoms) (mkState i [] cap) c = None.
Proof. reflexivity. Qed.

Lemma matcher_Chr ch i tl cap c :
  matcher (Chr ch) (mkState i (ch :: tl) cap) c = c (mkState (S i) tl cap).
Proof.
  unfold Chr. rewrite matcher_Class. unfold class_matches. simpl.
  rewrite N.eqb_refl. reflexivity.
Qed.

Lemma matcher_Chr_other ch ch' i tl cap c :
  (ch' =? ch)%N = false ->
  matcher (Chr ch) (mkState i (ch' :: tl) cap) c = None.
Proof.
  intros H. unfold Chr. rewrite matcher_Class. unfold class_matches. simpl.
  rewrite H. reflexivity.
Qed.

Lemma matcher_Seq r1 r2 x c :
  matcher (Seq r1 r2) x c = matcher r1 x (fun y => matcher r2 y c).
Proof. reflexivity. Qed.

Lemma matcher_Alt r1 r2 x c :
  matcher (Alt r1 r2) x c
  = match matcher r1 x c with Some z => Some z | None => matcher r2 x c end.
Proof. reflexivity. Qed.

Lemma matcher_NonCapture r x c : matcher (NonCapture r) x c = matcher r x c.
Proof. reflexivity. Qed.

Lemma matcher_Chr_cases ch a i tl cap c :
  matcher (Chr ch) (mkState i (a :: tl) cap) c
  = if (a =? ch)%N then c (mkState (S i) tl cap) else None.
Proof.
  unfold Chr. rewrite matcher_Class. unfold class_matches. simpl.
  rewrite orb_false_r. reflexivity.
Qed.

Lemma matcher_Group r x c :
  matcher (Group r) x c
  = matcher r x (fun y =>
      c (mkState (endIndex y) (remaining y)
                 (Some (firstn (endIndex y - endIndex x) (remaining x))))).
Proof. reflexivity. Qed.

Lemma matcher_Lookahead r x c :
  matcher (Lookahead r) x c
  = match matcher r x (fun y => Some y) with
    | Some y => c (mkState (endIndex x) (remaining x) (capture1 y))
    | None => None
    end.
Proof. reflexivity. Qed.

Lemma matcher_AssertStart x c :
  matcher AssertStart x c = if (endIndex x =? 0)%nat then c x else None.
Proof. reflexivity. Qed.

Lemma class_of_matches (l : jsstring) (u : code_unit) :
  class_matches false (map CChar l) u = existsb (fun m => (u =? m)%N) l.
Proof.
  unfold class_matches. simpl. induction l as [|m l IH]; simpl; [reflexivity|].
  rewrite IH. reflexivity.
Qed.

(** The repetition of an extensional matcher. *)
Section Repeat.

Variable m : Matcher.
Variable greedy : bool.
Hypothesis m_ext : extensional m.

Lemma RepeatMatcher_ext :
  forall fuel, extensional (fun x c => RepeatMatcher m greedy fuel x c).
Proof.
  intros fuel. induction fuel as [|fuel IH]; intros x c1 c2 Hc.
  - reflexivity.
  - simpl.
    assert (Hd : m x (fun y =>
                   if length (remaining y) <? length (remaining x)
                   then RepeatMatcher m greedy fuel y c1 else None)
               = m x (fun y =>
                   if length (remaining y) <? length (remaining x)
                   then RepeatMatcher m greedy fuel y c2 else None)).
    { apply m_ext. intros y.
      destruct (length (remaining y) <? length (remaining x)); [|reflexivity].
      apply IH, Hc. }
    rewrite Hd, (Hc x). reflexivity.
Qed.

(** Fuel above the length of the remaining input is never used up. *)
Lemma RepeatMatcher_fuel :
  forall n n' x c,
    length (remaining x) < n -> length (remaining x) < n' ->
    RepeatMatcher m greedy n x c = RepeatMatcher m greedy n' x c.
Proof.
  intros n. induction n as [|n IH]; intros n' x c Hn Hn'; [lia|].
  destruct n' as [|n']; [lia|]. simpl.
  assert (Hd : m x (fun y =>
                 if length (remaining y) <? length (remaining x)
                 then RepeatMatcher m greedy n y c else None)
             = m x (fun y =>
                 if length (remaining y) <? length (remaining x)
                 then RepeatMatcher m greedy n' y c else None)).
  { apply m_ext. intros y.
    destruct (length (remaining y) <? length (remaining x)) eqn:E;
      [|reflexivity].
    apply Nat.ltb_lt in E. apply IH; lia. }
  rewrite Hd. reflexivity.
Qed.

End Repeat.

Lemma matcher_ext (r : regex) : extensional (matcher r).
Proof.
  induction r; intros x c1 c2 Hc; simpl.
  - apply Hc.
  - destruct (remaining x) as [|ch tl]; [reflexivity|].
    destruct (class_matches negated atoms ch); [apply Hc|reflexivity].
  - apply IHr1. intros y. apply IHr2, Hc.
  - rewrite (IHr1 x c1 c2 Hc), (IHr2 x c1 c2 Hc). reflexivity.
  - apply (RepeatMatcher_ext greedy IHr (S (length (remaining x)))), Hc.
  - apply IHr. intros y. apply Hc.
  - apply IHr, Hc.
  - destruct (matcher r x (fun y => Some y)); [apply Hc|reflexivity].
  - destruct (endIndex x =? 0)%nat; [apply Hc|reflexivity].
Qed.

(** One iteration of [r*] or [r*?]. *)
Lemma matcher_Star_unfold (greedy : bool) (r : regex) x c :
  matcher (Star greedy r) x c =
  let d : Continuation := fun y =>
    if length (remaining y) <? length (remaining x)
    then matcher (Star greedy r) y c else None in
  if greedy then
    match matcher r x d with Some z => Some z | None => c x end
  else
    match c x with Some z => Some z | None => matcher r x d end.
Proof.
  cbn [matcher]. cbn [RepeatMatcher]. cbv zeta.
  assert (Hd : matcher r x (fun y =>
                 if length (remaining y) <? length (remaining x)
                 then RepeatMatcher (matcher r) greedy
                                    (length (remaining x)) y c
                 else None)
             = matcher r x (fun y =>
                 if length (remaining y) <? length (remaining x)
                 then RepeatMatcher (matcher r) greedy
                                    (S (length (remaining y))) y c
                 else None)).
  { apply matcher_ext. intros y.
    destruct (length (remaining y) <? length (remaining x)) eqn:E;
      [|reflexivity].
    apply Nat.ltb_lt in E.
    apply RepeatMatcher_fuel; [apply matcher_ext|lia|lia]. }
  rewrite Hd. reflexivity.
Qed.

(** A matcher only moves forward: what the continuation receives is not
    before the state the matcher started from. *)
Lemma matcher_forward (r : regex) :
  forall x c z, matcher r x c = Some z ->
  exists y, c y = Some z /\ endIndex x <= endIndex y.
Proof.
  induction r; intros x c z H; cbn [matcher] in H.
  - exists x. split; [assumption|lia].
  - destruct (remaining x) as [|ch tl]; [discriminate|].
    destruct (class_matches negated atoms ch); [|discriminate].
    eexists. split; [eassumption|simpl; lia].
  - apply IHr1 in H. destruct H as (y & H & Hxy).
    apply IHr2 in H. destruct H as (y' & H & Hyy').
    exists y'. split; [assumption|lia].
  - destruct (matcher r1 x c) eqn:E.
    + injection H as <-. apply IHr1 in E. exact E.
    + apply IHr2 in H. exact H.
  - remember (S (length (remaining x))) as fuel eqn:Hfuel. clear Hfuel.
    revert x z H. induction fuel as [|fuel IHf]; intros x z H;
      [discriminate|].
    cbn [RepeatMatcher] in H. cbv zeta in H.
    assert (Hit : forall z',
      matcher r x (fun y =>
        if length (remaining y) <? length (remaining x)
        then RepeatMatcher (matcher r) greedy fuel y c else None) = Some z' ->
      exists y, c y = Some z' /\ endIndex x <= endIndex y).
    { intros z' Hz'. apply IHr in Hz'. destruct Hz' as (y & Hy & Hxy).
      destruct (length (remaining y) <? length (remaining x)); [|discriminate].
      apply IHf in Hy. destruct Hy as (y' & Hy' & Hyy').
      exists y'. split; [assumption|lia]. }
    destruct greedy.
    + destruct (matcher r x _) eqn:E.
      * injection H as <-. apply Hit. reflexivity.
      * exists x. split; [assumption|lia].
    + destruct (c x) eqn:E.
      * injection H as <-. exists x. split; [assumption|lia].
      * apply Hit. assumption.
  - apply IHr in H. destruct H as (y & H & Hxy).
    eexists. split; [eassumption|simpl; lia].
  - apply IHr in H. exact H.
  - destruct (matcher r x (fun y => Some y)); [|discriminate].
    eexists. split; [eassumption|simpl; lia].
  - destruct (endIndex x =? 0)%nat; [|discriminate].
    exists x. split; [assumption|lia].
Qed.

(** The search for the first match: where it is found the pattern
    matches, and the position is that many code units into the text. *)
Lemma exec_from_found (r : regex) :
  forall s i j y, exec_from r i s = Some (j, y) ->
  exists k, j = i + k /\ k <= length s /\ match_at r j (skipn k s) = Some y.
Proof.
  induction s as [|ch s IH]; intros i j y H; simpl in H.
  - destruct (match_at r i []) eqn:E; [|discriminate].
    injection H as <- <-. exists 0. simpl. repeat split; [lia|lia|assumption].
  - destruct (match_at r i (ch :: s)) eqn:E.
    + injection H as <- <-. exists 0. simpl. repeat split; [lia|lia|assumption].
    + apply IH in H. destruct H as (k & -> & Hk & H).
      exists (S k). simpl. repeat split; [lia|lia|assumption].
Qed.

(** Progress of an iteration of the star. *)
Lemma shorter1 (A : Type) (l : list A) (a : A) :
  (length l <? length (a :: l)) = true.
Proof. apply Nat.ltb_lt. simpl. lia. Qed.

Lemma shorter (A : Type) (l1 l2 : list A) (a : A) :
  (length l2 <? length (a :: l1 ++ l2)) = true.
Proof. apply Nat.ltb_lt. simpl. rewrite length_app. lia. Qed.

End RegExpFacts.

(** ** extractProducts *)

Module ExtractFacts.
Import RegExp JSON JS Chat Shapes RegExpFacts.

#[local] Arguments matcher : simpl never.
#[local] Arguments RepeatMatcher : simpl never.

Lemma skipn_length_app (A : Type) (l1 l2 : list A) :
  skipn (length l1) (l1 ++ l2) = l2.
Proof. induction l1; simpl; auto. Qed.

Lemma firstn_length_app (A : Type) (l1 l2 : list A) :
  firstn (length l1) (l1 ++ l2) = l1.
Proof. induction l1; simpl; [|f_equal]; auto. Qed.

Lemma jsonRegex_eq : jsonRegex = Seq (Chr LBRACE) (Seq body_star (Chr RBRACE)).
Proof. reflexivity. Qed.

Lemma no_brace_step ch i tl cap c :
  is_brace ch = false ->
  matcher no_brace (mkState i (ch :: tl) cap) c = c (mkState (S i) tl cap).
Proof.
  intros H. unfold is_brace in H. unfold no_brace. rewrite matcher_Class.
  unfold class_matches. simpl. rewrite orb_false_r, H. reflexivity.
Qed.

Lemma no_brace_stop ch i tl cap c :
  is_brace ch = true ->
  matcher no_brace (mkState i (ch :: tl) cap) c = None.
Proof.
  intros H. unfold is_brace in H. unfold no_brace. rewrite matcher_Class.
  unfold class_matches. simpl. rewrite orb_false_r, H. reflexivity.
Qed.

Lemma brace_free_cons ch s :
  brace_free (ch :: s) = true -> is_brace ch = false /\ brace_free s = true.
Proof.
  unfold brace_free. simpl. intros H. apply andb_true_iff in H.
  destruct H as [H1 H2]. split; [|assumption].
  destruct (is_brace ch); [discriminate|reflexivity].
Qed.

(** [[^{}]*] runs over text without braces up to a closing brace. *)
Lemma inner_star_skip :
  forall b i rest cap c z,
    brace_free b = true ->
    c (mkState (i + length b) (RBRACE :: rest) cap) = Some z ->
    matcher (Star true no_brace) (mkState i (b ++ RBRACE :: rest) cap) c
    = Some z.
Proof.
  induction b as [|ch b IH]; intros i rest cap c z Hb Hc.
  - cbn [app length] in *. rewrite Nat.add_0_r in Hc.
    rewrite matcher_Star_unfold. cbv zeta.
    rewrite no_brace_stop by reflexivity. assumption.
  - apply brace_free_cons in Hb. destruct Hb as [Hch Hb].
    rewrite matcher_Star_unfold. cbv zeta. cbn [app].
    rewrite no_brace_step by assumption.
    cbn [remaining].
    rewrite shorter1.
    rewrite (IH (S i) rest cap c z Hb); [reflexivity|].
    replace (S i + length b) with (i + length (ch :: b)) by (simpl; lia).
    assumption.
Qed.

(** The outer star runs over text without braces... *)
Lemma body_star_plain :
  forall b i rest cap c z,
    brace_free b = true ->
    matcher body_star (mkState (i + length b) rest cap) c = Some z ->
    matcher body_star (mkState i (b ++ rest) cap) c = Some z.
Proof.
  induction b as [|ch b IH]; intros i rest cap c z Hb Hc.
  - cbn [app length] in *. rewrite Nat.add_0_r in Hc. assumption.
  - apply brace_free_cons in Hb. destruct Hb as [Hch Hb].
    unfold body_star. rewrite matcher_Star_unfold. cbv zeta. cbn [app].
    rewrite matcher_NonCapture, matcher_Alt.
    rewrite no_brace_step by assumption.
    cbn [remaining].
    rewrite shorter1.
    fold body_star.
    rewrite (IH (S i) rest cap c z Hb); [reflexivity|].
    replace (S i + length b) with (i + length (ch :: b)) by (simpl; lia).
    assumption.
Qed.

(** ... and over a brace pair around text without braces. *)
Lemma body_star_nested :
  forall b i rest cap c z,
    brace_free b = true ->
    matcher body_star
            (mkState (i + length (LBRACE :: b ++ [RBRACE])) rest cap) c
    = Some z ->
    matcher body_star (mkState i (LBRACE :: b ++ RBRACE :: rest) cap) c
    = Some z.
Proof.
  intros b i rest cap c z Hb Hc.
  unfold body_star. rewrite matcher_Star_unfold. cbv zeta.
  rewrite matcher_NonCapture, matcher_Alt.
  rewrite no_brace_stop by reflexivity.
  rewrite matcher_NonCapture, matcher_Seq, matcher_Chr, matcher_Seq.
  fold body_star.
  erewrite inner_star_skip; [reflexivity|assumption|].
  rewrite matcher_Chr. cbn [remaining].
  replace (LBRACE :: b ++ RBRACE :: rest)
    with (LBRACE :: (b ++ [RBRACE]) ++ rest)
    by (rewrite <- app_assoc; reflexivity).
  rewrite (shorter (b ++ [RBRACE]) rest LBRACE).
  rewrite <- Hc. do 2 f_equal. f_equal.
  simpl. rewrite length_app. simpl. lia.
Qed.

Lemma body_star_pieces :
  forall ps i rest cap c z,
    forallb piece_ok ps = true ->
    matcher body_star (mkState (i + length (content_text ps)) rest cap) c
    = Some z ->
    matcher body_star (mkState i (content_text ps ++ rest) cap) c = Some z.
Proof.
  unfold content_text.
  induction ps as [|p ps IH]; intros i rest cap c z Hok Hc.
  - cbn [flat_map app length] in *. rewrite Nat.add_0_r in Hc. assumption.
  - cbn [forallb] in Hok. apply andb_true_iff in Hok.
    destruct Hok as [Hp Hok].
    cbn [flat_map] in *. rewrite <- app_assoc.
    rewrite length_app, Nat.add_assoc in Hc.
    specialize (IH (i + length (piece_text p)) rest cap c z Hok Hc).
    destruct p as [s|s]; cbn [piece_ok] in Hp.
    + apply body_star_plain; assumption.
    + cbn [piece_text]. cbn [app]. rewrite <- app_assoc. cbn [app].
      apply body_star_nested; assumption.
Qed.

(** At a closing brace the star stops. *)
Lemma body_star_end i post cap c :
  matcher body_star (mkState i (RBRACE :: post) cap) c
  = c (mkState i (RBRACE :: post) cap).
Proof.
  unfold body_star. rewrite matcher_Star_unfold. cbv zeta.
  rewrite matcher_NonCapture, matcher_Alt.
  rewrite no_brace_stop by reflexivity.
  rewrite matcher_NonCapture, matcher_Seq.
  rewrite matcher_Chr_other by reflexivity. reflexivity.
Qed.

(** The pattern matches the whole of an object whose braces nest one
    level at most. *)
Lemma jsonRegex_object (ps : list piece) (i : nat) (post : jsstring) :
  forallb piece_ok ps = true ->
  match_at jsonRegex i (object_text ps ++ post)
  = Some (mkState (i + length (object_text ps)) post None).
Proof.
  intros Hok. unfold match_at, object_text. rewrite jsonRegex_eq.
  cbn [app]. rewrite <- app_assoc. cbn [app].
  rewrite matcher_Seq, matcher_Chr, matcher_Seq.
  apply body_star_pieces; [assumption|].
  rewrite body_star_end, matcher_Chr. do 2 f_equal.
  simpl. rewrite length_app. simpl. lia.
Qed.

(** Where the text has no opening brace the pattern does not match. *)
Lemma jsonRegex_needs_lbrace i s :
  match s with
  | ch :: _ => (ch =? LBRACE)%N = false
  | [] => True
  end ->
  match_at jsonRegex i s = None.
Proof.
  intros H. unfold match_at. rewrite jsonRegex_eq, matcher_Seq.
  destruct s as [|ch tl]; [reflexivity|].
  apply matcher_Chr_other. assumption.
Qed.

Lemma exec_from_jsonRegex_skip :
  forall pre s i,
    no_lbrace pre = true ->
    exec_from jsonRegex i (pre ++ s) = exec_from jsonRegex (i + length pre) s.
Proof.
  induction pre as [|ch pre IH]; intros s i H.
  - simpl. rewrite Nat.add_0_r. reflexivity.
  - unfold no_lbrace in H. simpl in H. apply andb_true_iff in H.
    destruct H as [Hch Hpre].
    cbn [app exec_from].
    rewrite jsonRegex_needs_lbrace
      by (destruct (ch =? LBRACE)%N; [discriminate|reflexivity]).
    rewrite IH by assumption. f_equal. simpl. lia.
Qed.

(** The first match in a text whose first opening brace starts such an
    object is that object. *)
Lemma string_match_object (pre post : jsstring) (ps : list piece) :
  no_lbrace pre = true ->
  forallb piece_ok ps = true ->
  string_match (pre ++ object_text ps ++ post) jsonRegex
  = Some (object_text ps).
Proof.
  intros Hpre Hok. unfold string_match, exec.
  rewrite exec_from_jsonRegex_skip by assumption.
  pose proof (jsonRegex_object ps (length pre) post Hok) as Hm.
  remember (object_text ps) as obj eqn:Hobj.
  assert (He : exec_from jsonRegex (0 + length pre) (obj ++ post)
               = Some (length pre,
                       mkState (length pre + length obj) post None)).
  { cbn [plus]. destruct (obj ++ post) eqn:E.
    - subst obj. discriminate.
    - cbn [exec_from]. rewrite Hm. reflexivity. }
  rewrite He. cbn [endIndex].
  rewrite skipn_length_app.
  replace (length pre + length obj - length pre) with (length obj) by lia.
  rewrite firstn_length_app. reflexivity.
Qed.

(** Whatever the pattern matches starts with an opening brace. *)
Lemma string_match_starts_with_lbrace (text m : jsstring) :
  string_match text jsonRegex = Some m -> exists m', m = LBRACE :: m'.
Proof.
  unfold string_match, exec. intros H.
  destruct (exec_from jsonRegex 0 text) as [[j y]|] eqn:E; [|discriminate].
  injection H as <-.
  apply exec_from_found in E. destruct E as (k & -> & _ & E).
  cbn [plus]. unfold match_at in E. rewrite jsonRegex_eq, matcher_Seq in E.
  destruct (skipn k text) as [|ch tl].
  { unfold Chr in E. rewrite matcher_Class_nil in E. discriminate. }
  destruct (ch =? LBRACE)%N eqn:Ech.
  - apply N.eqb_eq in Ech. subst ch. rewrite matcher_Chr in E.
    apply matcher_forward in E. destruct E as (y' & Hy & Hle).
    injection Hy as ->. cbn [endIndex] in Hle.
    destruct (endIndex y - k) as [|n] eqn:En; [lia|].
    cbn [firstn]. eexists. reflexivity.
  - rewrite matcher_Chr_other in E by assumption. discriminate.
Qed.

End ExtractFacts.

(** ** JSON.parse *)

Module JSONFacts.
Import JSON.

Lemma skip_ws_length (s : jsstring) : length (skip_ws s) <= length s.
Proof.
  induction s as [|c s IH]; simpl; [lia|].
  destruct (is_ws c); simpl; lia.
Qed.

Lemma skip_ws_cons_length (s t : jsstring) (d : code_unit) :
  skip_ws s = d :: t -> length t < length s.
Proof.
  intros H. pose proof (skip_ws_length s) as Hl. rewrite H in Hl.
  simpl in Hl. lia.
Qed.

Lemma parse_chars_length :
  forall s acc str r, parse_chars s acc = Some (str, r) -> length r < length s.
Proof.
  fix IH 1. intros s acc str r H. destruct s as [|c s1]; [discriminate|].
  cbn [parse_chars] in H.
  destruct (c =? 34)%N.
  { injection H as _ <-. simpl. lia. }
  destruct (c =? 92)%N.
  - destruct s1 as [|e s2]; [discriminate|].
    destruct (e =? 117)%N.
    + destruct s2 as [|h1 [|h2 [|h3 [|h4 s3]]]]; try discriminate.
      destruct (hex_value h1), (hex_value h2), (hex_value h3), (hex_value h4);
        try discriminate.
      apply IH in H. simpl. lia.
    + destruct (simple_escape e); [|discriminate].
      apply IH in H. simpl. lia.
  - destruct (c <? 32)%N; [discriminate|].
    apply IH in H. simpl. lia.
Qed.

Lemma read_digits_length :
  forall s acc k n k' r,
    read_digits s acc k = (n, k', r) -> length r <= length s.
Proof.
  induction s as [|c s IH]; intros acc k n k' r H; simpl in H.
  - injection H as _ _ <-. simpl. lia.
  - destruct (is_digit c).
    + apply IH in H. simpl. lia.
    + injection H as _ _ <-. simpl. lia.
Qed.

Lemma parse_number_length (s : jsstring) (v : json) (r : jsstring) :
  parse_number s = Some (v, r) -> length r < length s.
Proof.
  unfold parse_number. intros H.
  assert (Hint : forall s0 i s1, parse_int s0 = Some (i, s1) ->
                                 length s1 < length s0).
  { intros s0 i s1 Hi. unfold parse_int in Hi.
    destruct s0 as [|c s']; [discriminate|].
    destruct (c =? 48)%N.
    - injection Hi as _ <-. simpl. lia.
    - destruct (is_digit c); [|discriminate].
      destruct (read_digits s' (c - 48) 1) as [[n k] r0] eqn:E.
      injection Hi as _ <-. apply read_digits_length in E. simpl. lia. }
  assert (Hfrac : forall i s1 m k s2, parse_frac i s1 = Some (m, k, s2) ->
                                      length s2 <= length s1).
  { intros i s1 m k s2 Hf. unfold parse_frac in Hf.
    destruct s1 as [|c s']; [injection Hf as _ _ <-; simpl; lia|].
    destruct (c =? 46)%N.
    - destruct (read_digits s' i 0) as [[n k0] r0] eqn:E.
      destruct k0; [discriminate|].
      injection Hf as _ _ <-. apply read_digits_length in E. simpl. lia.
    - injection Hf as _ _ <-. lia. }
  assert (Hexp : forall s2 e s3, parse_exp s2 = Some (e, s3) ->
                                 length s3 <= length s2).
  { intros s2 e s3 He. unfold parse_exp in He.
    destruct s2 as [|c s']; [injection He as _ <-; simpl; lia|].
    destruct ((c =? 101) || (c =? 69))%N.
    - destruct s' as [|d t].
      + simpl in He. discriminate.
      + destruct (d =? 45)%N.
        * destruct (read_digits t 0 0) as [[n k0] r0] eqn:E.
          destruct k0; [discriminate|].
          injection He as _ <-. apply read_digits_length in E. simpl. lia.
        * destruct (d =? 43)%N.
          -- destruct (read_digits t 0 0) as [[n k0] r0] eqn:E.
             destruct k0; [discriminate|].
             injection He as _ <-. apply read_digits_length in E.
             simpl. lia.
          -- destruct (read_digits (d :: t) 0 0) as [[n k0] r0] eqn:E.
             destruct k0; [discriminate|].
             injection He as _ <-. apply read_digits_length in E.
             simpl in *. lia.
    - injection He as _ <-. lia. }
  destruct s as [|c s'].
  - simpl in H. discriminate.
  - destruct (c =? 45)%N.
    + destruct (parse_int s') as [[i s1]|] eqn:Ei; [|discriminate].
      destruct (parse_frac i s1) as [[[m k] s2]|] eqn:Ef; [|discriminate].
      destruct (parse_exp s2) as [[e s3]|] eqn:Ee; [|discriminate].
      injection H as _ <-.
      apply Hint in Ei. apply Hfrac in Ef. apply Hexp in Ee. simpl. lia.
    + destruct (parse_int (c :: s')) as [[i s1]|] eqn:Ei; [|discriminate].
      destruct (parse_frac i s1) as [[[m k] s2]|] eqn:Ef; [|discriminate].
      destruct (parse_exp s2) as [[e s3]|] eqn:Ee; [|discriminate].
      injection H as _ <-.
      apply Hint in Ei. apply Hfrac in Ef. apply Hexp in Ee. simpl in *. lia.
Qed.

Lemma strip_prefix_length :
  forall lit s r,
    strip_prefix lit s = Some r -> length s = length lit + length r.
Proof.
  induction lit as [|a lit IH]; intros s r H; simpl in H.
  - injection H as <-. reflexivity.
  - destruct s as [|b s']; [discriminate|].
    destruct (a =? b)%N; [|discriminate]. apply IH in H. simpl. lia.
Qed.

Lemma literal_length (lit s r : jsstring) (v : json) (res : json * jsstring) :
  option_map (fun r => (v, r)) (strip_prefix lit s) = Some res ->
  length s = length lit + length (snd res).
Proof.
  destruct (strip_prefix lit s) as [r0|] eqn:E; [|discriminate].
  simpl. intros H. injection H as <-. simpl. apply strip_prefix_length, E.
Qed.

(** What a parser leaves is shorter than what it was given. *)
Lemma parse_rest_shorter :
  forall n,
    (forall s v r, parse_value n s = Some (v, r) -> length r < length s)
    /\ (forall s acc v r,
           parse_members n s acc = Some (v, r) -> length r < length s)
    /\ (forall s acc v r,
           parse_elements n s acc = Some (v, r) -> length r < length s).
Proof.
  induction n as [|n (IHv & IHm & IHe)].
  { repeat split; intros; discriminate. }
  split; [|split].
  - intros s v r H. destruct s as [|c s']; [discriminate|].
    cbn [parse_value] in H.
    destruct (c =? 123)%N.
    { destruct (skip_ws s') as [|d t] eqn:E; [discriminate|].
      pose proof (skip_ws_cons_length _ E) as Hl.
      destruct (d =? 125)%N.
      - injection H as _ <-. simpl. lia.
      - apply IHm in H. simpl in *. lia. }
    destruct (c =? 91)%N.
    { destruct (skip_ws s') as [|d t] eqn:E; [discriminate|].
      pose proof (skip_ws_cons_length _ E) as Hl.
      destruct (d =? 93)%N.
      - injection H as _ <-. simpl. lia.
      - apply IHe in H. simpl in *. lia. }
    destruct (c =? 34)%N.
    { destruct (parse_chars s' []) as [[str r0]|] eqn:E; [|discriminate].
      injection H as _ <-. apply parse_chars_length in E. simpl. lia. }
    destruct (c =? 116)%N.
    { apply (literal_length _ _ r) in H. rewrite H. simpl. lia. }
    destruct (c =? 102)%N.
    { apply (literal_length _ _ r) in H. rewrite H. simpl. lia. }
    destruct (c =? 110)%N.
    { apply (literal_length _ _ r) in H. rewrite H. simpl. lia. }
    apply parse_number_length in H. exact H.
  - intros s acc v r H. destruct s as [|c s1]; [discriminate|].
    cbn [parse_members] in H.
    destruct (c =? 34)%N; [|discriminate].
    destruct (parse_chars s1 []) as [[key s2]|] eqn:Ek; [|discriminate].
    apply parse_chars_length in Ek.
    destruct (skip_ws s2) as [|colon s3] eqn:E2; [discriminate|].
    apply skip_ws_cons_length in E2.
    destruct (colon =? 58)%N; [|discriminate].
    destruct (parse_value n (skip_ws s3)) as [[v' s4]|] eqn:Ev; [|discriminate].
    apply IHv in Ev. pose proof (skip_ws_length s3) as H3.
    destruct (skip_ws s4) as [|d s5] eqn:E4; [discriminate|].
    apply skip_ws_cons_length in E4.
    destruct (d =? 125)%N.
    + injection H as _ <-. simpl. lia.
    + destruct (d =? 44)%N; [|discriminate].
      apply IHm in H. pose proof (skip_ws_length s5). simpl. lia.
  - intros s acc v r H. cbn [parse_elements] in H.
    destruct (parse_value n s) as [[v' s1]|] eqn:Ev; [|discriminate].
    apply IHv in Ev.
    destruct (skip_ws s1) as [|d s2] eqn:E1; [discriminate|].
    apply skip_ws_cons_length in E1.
    destruct (d =? 93)%N.
    + injection H as _ <-. lia.
    + destruct (d =? 44)%N; [|discriminate].
      apply IHe in H. pose proof (skip_ws_length s2). lia.
Qed.

(** Fuel above twice the length of the text is never used up: with two
    such fuels the parsers give the same result. *)
Lemma parse_fuel :
  forall n m,
    (forall s, 2 * length s < n -> 2 * length s < m ->
               parse_value n s = parse_value m s)
    /\ (forall s acc, 2 * length s < n -> 2 * length s < m ->
                      parse_members n s acc = parse_members m s acc)
    /\ (forall s acc, 2 * length s + 1 < n -> 2 * length s + 1 < m ->
                      parse_elements n s acc = parse_elements m s acc).
Proof.
  induction n as [|n IH]; intros m.
  { repeat split; intros; lia. }
  destruct m as [|m].
  { repeat split; intros; lia. }
  destruct (IH m) as (IHv & IHm & IHe).
  destruct (parse_rest_shorter m) as (Lv & _ & _).
  split; [|split].
  - intros s Hn Hm. destruct s as [|c s']; [reflexivity|].
    cbn [parse_value]. simpl in Hn, Hm.
    destruct (c =? 123)%N.
    { destruct (skip_ws s') as [|d t] eqn:E; [reflexivity|].
      pose proof (skip_ws_cons_length _ E) as Hl.
      destruct (d =? 125)%N; [reflexivity|].
      apply IHm; simpl; lia. }
    destruct (c =? 91)%N.
    { destruct (skip_ws s') as [|d t] eqn:E; [reflexivity|].
      pose proof (skip_ws_cons_length _ E) as Hl.
      destruct (d =? 93)%N; [reflexivity|].
      apply IHe; simpl; lia. }
    reflexivity.
  - intros s acc Hn Hm. destruct s as [|c s1]; [reflexivity|].
    cbn [parse_members]. simpl in Hn, Hm.
    destruct (c =? 34)%N; [|reflexivity].
    destruct (parse_chars s1 []) as [[key s2]|] eqn:Ek; [|reflexivity].
    apply parse_chars_length in Ek.
    destruct (skip_ws s2) as [|colon s3] eqn:E2; [reflexivity|].
    apply skip_ws_cons_length in E2.
    destruct (colon =? 58)%N; [|reflexivity].
    pose proof (skip_ws_length s3) as H3.
    rewrite (IHv (skip_ws s3)) by lia.
    destruct (parse_value m (skip_ws s3)) as [[v' s4]|] eqn:Ev; [|reflexivity].
    apply Lv in Ev.
    destruct (skip_ws s4) as [|d s5] eqn:E4; [reflexivity|].
    apply skip_ws_cons_length in E4.
    destruct (d =? 125)%N; [reflexivity|].
    destruct (d =? 44)%N; [|reflexivity].
    pose proof (skip_ws_length s5). apply IHm; lia.
  - intros s acc Hn Hm. cbn [parse_elements].
    rewrite (IHv s) by lia.
    destruct (parse_value m s) as [[v' s1]|] eqn:Ev; [|reflexivity].
    apply Lv in Ev.
    destruct (skip_ws s1) as [|d s2] eqn:E1; [reflexivity|].
    apply skip_ws_cons_length in E1.
    destruct (d =? 93)%N; [reflexivity|].
    destruct (d =? 44)%N; [|reflexivity].
    pose proof (skip_ws_length s2). apply IHe; lia.
Qed.

(** The fuel [JSON.parse] starts with is enough: more fuel gives the same
    result. *)
Lemma parse_value_fuel (text : jsstring) (n : nat) :
  2 * length text < n ->
  parse_value n (skip_ws text)
  = parse_value (S (2 * length text)) (skip_ws text).
Proof.
  intros H. pose proof (skip_ws_length text).
  apply (proj1 (parse_fuel n (S (2 * length text)))); lia.
Qed.

(** The members of an object parse to an object. *)
Lemma parse_members_object :
  forall fuel s acc v r,
    parse_members fuel s acc = Some (v, r) -> exists ms, v = JObject ms.
Proof.
  induction fuel as [|fuel IH]; intros s acc v r H; [discriminate|].
  cbn [parse_members] in H.
  destruct s as [|c s1]; [discriminate|].
  destruct (c =? 34)%N; [|discriminate].
  destruct (parse_chars s1 []) as [[key s2]|]; [|discriminate].
  destruct (skip_ws s2) as [|colon s3]; [discriminate|].
  destruct (colon =? 58)%N; [|discriminate].
  destruct (parse_value fuel (skip_ws s3)) as [[v' s4]|]; [|discriminate].
  destruct (skip_ws s4) as [|d s5]; [discriminate|].
  destruct (d =? 125)%N.
  - injection H as <- _. eexists. reflexivity.
  - destruct (d =? 44)%N; [|discriminate].
    apply IH in H. exact H.
Qed.

(** A text that starts with an opening brace parses to an object, if it
    parses at all. *)
Lemma parse_lbrace_object (m : jsstring) (v : json) :
  parse (LBRACE :: m) = Some v -> exists ms, v = JObject ms.
Proof.
  unfold parse. cbn [skip_ws]. change (is_ws LBRACE) with false. cbv iota.
  cbn [parse_value]. change (LBRACE =? 123)%N with true. cbv iota.
  intros H.
  destruct (skip_ws m) as [|d t]; [discriminate|].
  destruct (d =? 125)%N.
  - destruct (skip_ws t); [|discriminate]. injection H as <-.
    eexists. reflexivity.
  - destruct (parse_members _ _ _) as [[v' r]|] eqn:E; [|discriminate].
    destruct (skip_ws r); [|discriminate]. injection H as <-.
    apply parse_members_object in E. exact E.
Qed.

End JSONFacts.

(** ** What extractProducts returns *)

Module ExtractClaims.
Import RegExp JSON JS Chat Shapes RegExpFacts ExtractFacts JSONFacts.

(** The product built from an object. *)
Lemma product_of_object (v : Variant) (ms : list (jsstring * json)) :
  product_of v (JObject ms)
  = Normal
      {| name := own_property (js:"name") ms;
         description := own_property (js:"description") ms;
         price := or_else (own_property (js:"price") ms)
                          (Str (pricePlaceholder v));
         url := or_else (own_property (js:"url") ms) (Str (js:"#"));
         image_url := or_else (own_property (js:"image_url") ms) (Str []);
         ingredients := or_else (own_property (js:"ingredients") ms)
                                (Json (JArray []));
         advantages := or_else (own_property (js:"advantages") ms)
                               (Json (JArray []));
         suitability := or_else (own_property (js:"suitability") ms)
                                (Json (JArray []));
         questions := or_else (own_property (js:"questions") ms)
                              (Json (JArray [])) |}.
Proof. reflexivity. Qed.

(** When the pattern matches and the match parses, a product is built. *)
Lemma extractProducts_parsed (v : Variant) (text m : jsstring) (data : json) :
  string_match text jsonRegex = Some m ->
  JSON.parse m = Some data ->
  exists ms p, data = JObject ms /\ product_of v data = Normal p
               /\ extractProducts_try v text = Normal (Some [p])
               /\ extractProducts v text = Some [p].
Proof.
  intros Hm Hp.
  destruct (string_match_starts_with_lbrace _ Hm) as (m' & ->).
  destruct (parse_lbrace_object _ Hp) as (ms & ->).
  exists ms. eexists. split; [reflexivity|].
  split; [apply product_of_object|].
  unfold extractProducts, extractProducts_try.
  rewrite Hm, Hp, product_of_object. split; reflexivity.
Qed.

(** C3, as the claim states it, fails: for the text
    {"name":"Serum","description":"Hydrating"}, one single-level object
    with [name] and [description], the [image_url] of the product
    returned is the empty string, not a placeholder image. *)
Lemma extractProducts_image_url_is_empty :
  exists p,
    extractProducts with_greeting
                    (jsq "{'name':'Serum','description':'Hydrating'}")
    = Some [p]
    /\ image_url p = Str []
    /\ image_url p <> Str defaultImageUrl.
Proof.
  eexists. split; [vm_compute; reflexivity|].
  split; [reflexivity|]. vm_compute. discriminate.
Qed.

(** C3, amended: for every text whose first opening brace starts a
    single-level brace-delimited JSON object (no brace inside) that has
    [name] and [description] and none of the optional fields,
    extractProducts returns one product, with [name] and [description]
    taken from the object, [price] the placeholder of the variant, [url]
    the anchor #, [image_url] the empty string, and [ingredients],
    [advantages], [suitability] and [questions] empty arrays; the product
    card of the greeting variant then shows the placeholder image in
    place of the empty [image_url]. *)
Theorem extractProducts_defaults
        (v : Variant) (pre body post : jsstring)
        (ms : list (jsstring * json)) (n d : json) :
  no_lbrace pre = true ->
  brace_free body = true ->
  JSON.parse (LBRACE :: body ++ [RBRACE]) = Some (JObject ms) ->
  own_property (js:"name") ms = Json n ->
  own_property (js:"description") ms = Json d ->
  lacks_optional_fields ms = true ->
  let p := {| name := Json n;
              description := Json d;
              price := Str (pricePlaceholder v);
              url := Str (js:"#");
              image_url := Str [];
              ingredients := Json (JArray []);
              advantages := Json (JArray []);
              suitability := Json (JArray []);
              questions := Json (JArray []) |} in
  extractProducts v (pre ++ LBRACE :: body ++ RBRACE :: post) = Some [p]
  /\ ProductCard_image p = Str defaultImageUrl.
Proof.
  intros Hpre Hbody Hparse Hn Hd Hopt p.
  split; [|reflexivity].
  assert (Hok : forallb piece_ok [Plain body] = true).
  { simpl. rewrite Hbody. reflexivity. }
  pose proof (string_match_object pre post [Plain body] Hpre Hok) as Hm.
  unfold object_text, content_text in Hm. cbn [flat_map piece_text] in Hm.
  rewrite app_nil_r in Hm.
  replace ((LBRACE :: body ++ [RBRACE]) ++ post)
    with (LBRACE :: body ++ RBRACE :: post) in Hm
    by (cbn [app]; rewrite <- app_assoc; reflexivity).
  unfold extractProducts, extractProducts_try.
  rewrite Hm, Hparse, product_of_object, Hn, Hd.
  unfold lacks_optional_fields, optional_fields in Hopt.
  cbn [forallb] in Hopt.
  repeat match type of Hopt with
         | (_ && _)%bool = true =>
           let H := fresh "H" in
           apply andb_true_iff in Hopt; destruct Hopt as [H Hopt]
         end.
  repeat match goal with
         | H : is_undefined (own_property ?k ms) = true |- _ =>
           destruct (own_property k ms); [clear H|discriminate H]
         end.
  reflexivity.
Qed.

Lemma extractProducts_defaults_witness :
  let p := {| name := Str (js:"Serum");
              description := Str (js:"Hydrating");
              price := Str (js:"€18.99");
              url := Str (js:"#");
              image_url := Str [];
              ingredients := Json (JArray []);
              advantages := Json (JArray []);
              suitability := Json (JArray []);
              questions := Json (JArray []) |} in
  extractProducts with_greeting
    (js:"Try this: " ++ LBRACE
       :: jsq "'name':'Serum','description':'Hydrating'"
       ++ RBRACE :: js:" enjoy")
  = Some [p]
  /\ ProductCard_image p = Str defaultImageUrl.
Proof.
  apply (extractProducts_defaults with_greeting
           (js:"Try this: ")
           (jsq "'name':'Serum','description':'Hydrating'")
           (js:" enjoy")
           (ms := [(js:"name", JString (js:"Serum"));
                   (js:"description", JString (js:"Hydrating"))])
           (n := JString (js:"Serum")) (d := JString (js:"Hydrating")));
    vm_compute; reflexivity.
Defined.

(** C4: extractProducts returns null exactly when the pattern finds no
    match or the first match does not parse as JSON; the body of the
    [try] throws exactly in the second case, and what it throws is
    caught, so the function returns for every text. *)
Theorem extractProducts_null_iff (v : Variant) (text : jsstring) :
  (extractProducts v text = None
   <-> string_match text jsonRegex = None
       \/ exists m, string_match text jsonRegex = Some m
                    /\ JSON.parse m = None)
  /\ (extractProducts_try v text = Throw
      <-> exists m, string_match text jsonRegex = Some m
                    /\ JSON.parse m = None).
Proof.
  destruct (string_match text jsonRegex) as [m|] eqn:Hm.
  - destruct (JSON.parse m) as [data|] eqn:Hp.
    + destruct (extractProducts_parsed v _ Hm Hp)
        as (ms & p & _ & _ & Htry & Hres).
      rewrite Htry, Hres. split; split.
      * discriminate.
      * intros [H|(m0 & H & H')]; [discriminate|].
        injection H as <-. congruence.
      * discriminate.
      * intros (m0 & H & H'). injection H as <-. congruence.
    + assert (Htry : extractProducts_try v text = Throw).
      { unfold extractProducts_try. rewrite Hm, Hp. reflexivity. }
      unfold extractProducts. rewrite Htry. split; split.
      * intros _. right. exists m. split; [reflexivity|assumption].
      * reflexivity.
      * intros _. exists m. split; [reflexivity|assumption].
      * reflexivity.
  - assert (Htry : extractProducts_try v text = Normal None).
    { unfold extractProducts_try. rewrite Hm. reflexivity. }
    unfold extractProducts. rewrite Htry. split; split.
    + intros _. left. reflexivity.
    + reflexivity.
    + discriminate.
    + intros (m0 & H & _). discriminate.
Qed.




(** The product of the text above, field by field. *)
Lemma extractProducts_one_level_nesting_example :
  extractProducts empty_start
    (jsq "Here: {'name':'S','meta':{'k':1},'price':'9'} bye")
  = Some [{| name := Str (js:"S");
             description := Undefined;
             price := Str (js:"9");
             url := Str (js:"#");
             image_url := Str [];
             ingredients := Json (JArray []);
             advantages := Json (JArray []);
             suitability := Json (JArray []);
             questions := Json (JArray []) |}].
Proof. vm_compute. reflexivity. Qed.

(** C9: for every text whose first match of the pattern parses as a JSON
    object, extractProducts returns one product whose [name] and
    [description] are what the object has under these names: [undefined]
    when the object lacks them, never a default, never a null result. *)
Theorem extractProducts_name_description_not_required
        (v : Variant) (text m : jsstring) (ms : list (jsstring * json)) :
  string_match text jsonRegex = Some m ->
  JSON.parse m = Some (JObject ms) ->
  exists p, extractProducts v text = Some [p]
            /\ name p = own_property (js:"name") ms
            /\ description p = own_property (js:"description") ms.
Proof.
  intros Hm Hp.
  unfold extractProducts, extractProducts_try.
  rewrite Hm, Hp, product_of_object.
  eexists. split; [reflexivity|]. split; reflexivity.
Qed.

Lemma extractProducts_name_description_not_required_witness :
  exists p, extractProducts empty_start (jsq "{}") = Some [p]
            /\ name p = Undefined
            /\ description p = Undefined.
Proof.
  apply (extractProducts_name_description_not_required empty_start
           (jsq "{}") (m := jsq "{}") (ms := []));
    vm_compute; reflexivity.
Defined.

End ExtractClaims.

(** ** formatResponseText *)

Module FormatFacts.
Import RegExp JSON JS Chat Shapes RegExpFacts.

#[local] Arguments matcher : simpl never.
#[local] Arguments RepeatMatcher : simpl never.

(** The code units of the class. *)
Lemma markers_units :
  markers = [0xD83D; 0xDC69; 0xD83C; 0xDFFC; 0x200D; 0xD83D; 0xDD2C;
             0xD83C; 0xDF1F; 0x2728; 0xD83D; 0xDCAB]%N.
Proof. reflexivity. Qed.

Lemma header_eq :
  header = Seq (Seq (Chr 35%N) (Seq (Chr 35%N) (Chr 32%N))) (ClassOf markers).
Proof. reflexivity. Qed.

(** The header pattern matches exactly where the text starts with "## "
    and a code unit of the class; the match is these four code units. *)
Lemma matcher_Chr_nil ch i cap c : matcher (Chr ch) (mkState i [] cap) c = None.
Proof. reflexivity. Qed.

Ltac chr_step :=
  cbv beta; repeat rewrite matcher_Seq;
  first [rewrite matcher_Chr_cases | rewrite matcher_Chr_nil].

Lemma header_matcher (s : jsstring) (i : nat) cap (c : Continuation) :
  matcher header (mkState i s cap) c
  = if starts_with_header s
    then c (mkState (i + 4) (skipn 4 s) cap)
    else None.
Proof.
  rewrite header_eq. unfold ClassOf.
  destruct s as [|a s]; [reflexivity|]. chr_step.
  destruct s as [|b s].
  { cbn [starts_with_header]. destruct (a =? 35)%N; [chr_step|]; reflexivity. }
  destruct s as [|c0 s].
  { cbn [starts_with_header]. destruct (a =? 35)%N; [chr_step|reflexivity].
    destruct (b =? 35)%N; [chr_step|]; reflexivity. }
  destruct s as [|u s].
  { cbn [starts_with_header]. destruct (a =? 35)%N; [chr_step|reflexivity].
    destruct (b =? 35)%N; [chr_step|reflexivity].
    destruct (c0 =? 32)%N; [cbv beta; rewrite matcher_Class_nil|];
      reflexivity. }
  cbn [starts_with_header skipn].
  destruct (a =? 35)%N; [chr_step|reflexivity].
  destruct (b =? 35)%N; [chr_step|reflexivity].
  destruct (c0 =? 32)%N; [cbv beta|reflexivity].
  rewrite matcher_Class, class_of_matches. cbn [andb].
  replace (i + 4) with (S (S (S (S i)))) by lia. reflexivity.
Qed.

Lemma has_header_cons ch s :
  has_header (ch :: s) = false ->
  starts_with_header (ch :: s) = false /\ has_header s = false.
Proof.
  cbn [has_header]. intros H. apply orb_false_iff in H. exact H.
Qed.

Lemma any_char_step ch i tl cap c :
  matcher any_char (mkState i (ch :: tl) cap) c = c (mkState (S i) tl cap).
Proof.
  unfold any_char. rewrite matcher_Class. unfold class_matches. simpl.
  destruct (is_space ch); reflexivity.
Qed.

(** Without a header in the text, [[\s\S]*?] followed by the header group
    fails wherever it starts. *)
Lemma lazy_star_no_header :
  forall s i cap c,
    has_header s = false ->
    matcher (Star false any_char) (mkState i s cap)
            (fun y => matcher (Group header) y c) = None.
Proof.
  induction s as [|ch s IH]; intros i cap c H.
  - rewrite matcher_Star_unfold. cbv zeta.
    rewrite matcher_Group, header_matcher. cbn [remaining starts_with_header].
    unfold any_char. rewrite matcher_Class_nil. reflexivity.
  - pose proof (has_header_cons _ _ H) as [Hs Ht].
    rewrite matcher_Star_unfold. cbv zeta.
    rewrite matcher_Group, header_matcher. cbn [remaining]. rewrite Hs.
    rewrite any_char_step. cbn [remaining]. rewrite shorter1.
    apply IH. assumption.
Qed.

Lemma stripRegex_eq :
  stripRegex = Seq AssertStart (Seq (Star false any_char) (Group header)).
Proof. reflexivity. Qed.

Lemma stripRegex_only_at_start (s : jsstring) (i : nat) :
  match_at stripRegex (S i) s = None.
Proof.
  unfold match_at. rewrite stripRegex_eq, matcher_Seq, matcher_AssertStart.
  reflexivity.
Qed.

Lemma exec_from_stripRegex_later :
  forall s i, exec_from stripRegex (S i) s = None.
Proof.
  induction s as [|ch s IH]; intros i; cbn [exec_from];
    rewrite stripRegex_only_at_start; [reflexivity|apply IH].
Qed.

(** Without a header the leading strip leaves the text as it is. *)
Lemma replace_no_header (text : jsstring) :
  has_header text = false ->
  replace_by_group1 text stripRegex = text.
Proof.
  intros H. unfold replace_by_group1, exec.
  assert (H0 : match_at stripRegex 0 text = None).
  { unfold match_at.
    rewrite stripRegex_eq, matcher_Seq, matcher_AssertStart. cbn [endIndex].
    cbn [Nat.eqb]. rewrite matcher_Seq. apply lazy_star_no_header, H. }
  destruct text as [|ch s]; cbn [exec_from]; rewrite H0; [reflexivity|].
  rewrite exec_from_stripRegex_later. reflexivity.
Qed.

Lemma splitRegex_no_match (s : jsstring) (q : nat) :
  starts_with_header s = false -> match_at splitRegex q s = None.
Proof.
  intros H. unfold match_at, splitRegex.
  rewrite matcher_Lookahead, header_matcher. cbn [remaining]. rewrite H.
  reflexivity.
Qed.

Lemma split_loop_no_header :
  forall rest fuel q cur,
    has_header rest = false ->
    length rest < fuel ->
    split_loop splitRegex fuel q cur rest = [cur ++ rest].
Proof.
  induction rest as [|ch rest IH]; intros fuel q cur H Hf;
    (destruct fuel as [|fuel]; [simpl in Hf; lia|]); cbn [split_loop].
  - rewrite app_nil_r. reflexivity.
  - pose proof (has_header_cons _ _ H) as [Hs Ht].
    rewrite splitRegex_no_match by assumption.
    rewrite IH by (simpl in Hf; try assumption; lia).
    rewrite <- app_assoc. reflexivity.
Qed.

(** Without a header the split gives the text as its only piece. *)
Lemma split_no_header (s : jsstring) :
  has_header s = false -> RegExp.split s splitRegex = [s].
Proof.
  intros H. unfold RegExp.split. destruct s as [|ch s].
  - rewrite splitRegex_no_match by reflexivity. reflexivity.
  - rewrite split_loop_no_header; [reflexivity|assumption|simpl; lia].
Qed.

(** A header in a part of the text is a header in the text. *)
Lemma starts_with_header_app (s t : jsstring) :
  starts_with_header s = true -> starts_with_header (s ++ t) = true.
Proof.
  destruct s as [|a [|b [|c0 [|u s]]]]; try discriminate. intros H. exact H.
Qed.

Lemma has_header_app_l (s t : jsstring) :
  has_header s = true -> has_header (s ++ t) = true.
Proof.
  induction s as [|ch s IH]; [discriminate|].
  cbn [has_header app]. intros H. apply orb_true_iff in H.
  apply orb_true_iff. destruct H as [H|H].
  - left. apply (starts_with_header_app (ch :: s) t H).
  - right. apply IH, H.
Qed.

Lemma has_header_app_r (s t : jsstring) :
  has_header t = true -> has_header (s ++ t) = true.
Proof.
  intros H. induction s as [|ch s IH]; [assumption|].
  cbn [has_header app]. rewrite IH. apply orb_true_r.
Qed.

Lemma trimStart_suffix (s : jsstring) : exists w, s = w ++ trimStart s.
Proof.
  induction s as [|ch s IH]; [exists []; reflexivity|].
  cbn [trimStart]. destruct (is_space ch).
  - destruct IH as [w Hw]. exists (ch :: w). cbn [app]. f_equal. exact Hw.
  - exists []. reflexivity.
Qed.

Lemma trimEnd_prefix (s : jsstring) : exists w, s = trimEnd s ++ w.
Proof.
  unfold trimEnd. destruct (trimStart_suffix (rev s)) as [w Hw].
  exists (rev w). rewrite <- rev_app_distr, <- Hw, rev_involutive.
  reflexivity.
Qed.

Lemma has_header_trim (s : jsstring) :
  has_header s = false -> has_header (trim s) = false.
Proof.
  intros H. destruct (has_header (trim s)) eqn:E; [|reflexivity].
  unfold trim in E.
  destruct (trimEnd_prefix (trimStart s)) as [w Hw].
  destruct (trimStart_suffix s) as [w' Hw'].
  apply (has_header_app_l _ w) in E. rewrite <- Hw in E.
  apply (has_header_app_r w') in E. rewrite <- Hw' in E. congruence.
Qed.

(** White space only, and what [trim] leaves. *)
Lemma trimStart_nil_iff (s : jsstring) : trimStart s = [] <-> blank s = true.
Proof.
  unfold blank. induction s as [|ch s IH]; cbn [trimStart forallb].
  - tauto.
  - destruct (is_space ch); cbn [andb]; [exact IH|].
    split; discriminate.
Qed.

Lemma blank_trimStart (s : jsstring) : blank (trimStart s) = blank s.
Proof.
  unfold blank. induction s as [|ch s IH]; [reflexivity|].
  cbn [trimStart]. destruct (is_space ch) eqn:E; cbn [forallb].
  - rewrite E. exact IH.
  - reflexivity.
Qed.

Lemma blank_rev (s : jsstring) : blank (rev s) = blank s.
Proof.
  unfold blank. induction s as [|ch s IH]; [reflexivity|].
  cbn [rev]. rewrite forallb_app, IH. cbn [forallb].
  rewrite andb_true_r. apply andb_comm.
Qed.

Lemma blank_trim (s : jsstring) : blank (trim s) = blank s.
Proof.
  unfold trim, trimEnd.
  rewrite blank_rev, blank_trimStart, blank_rev, blank_trimStart.
  reflexivity.
Qed.

Lemma nonblank_blank (s : jsstring) : nonblank s = negb (blank s).
Proof.
  unfold nonblank. destruct (trim s) as [|ch t] eqn:E.
  - unfold trim, trimEnd in E.
    assert (E' : trimStart (rev (trimStart s)) = []).
    { destruct (trimStart (rev (trimStart s))) as [|x l]; [reflexivity|].
      cbn [rev] in E. destruct (rev l); discriminate. }
    apply trimStart_nil_iff in E'. rewrite blank_rev, blank_trimStart in E'.
    rewrite E'. reflexivity.
  - destruct (blank s) eqn:B; [|reflexivity].
    rewrite <- blank_trim in B. apply trimStart_nil_iff in B.
    rewrite E in B. cbn [trimStart] in B.
    assert (Hns : is_space ch = false).
    { unfold trim, trimEnd in E.
      destruct (trimStart_suffix (rev (trimStart s))) as [w Hw].
      (* the first code unit of what trim leaves is not white space *)
      clear B Hw w.
      remember (trimStart s) as t0 eqn:Ht0.
      assert (Hhd : match t0 with [] => True | c :: _ => is_space c = false end).
      { subst t0. clear E. induction s as [|c s IH]; [exact I|].
        cbn [trimStart]. destruct (is_space c) eqn:Ec; [exact IH|exact Ec]. }
      clear Ht0.
      destruct t0 as [|c t0]; [discriminate E|].
      assert (Hkeep : exists l, trimStart (rev (c :: t0)) = l ++ [c]).
      { cbn [rev]. generalize (rev t0). intros l.
        induction l as [|x l IHl].
        - cbn [app trimStart]. rewrite Hhd. exists []. reflexivity.
        - cbn [app trimStart]. destruct (is_space x).
          + exact IHl.
          + exists (x :: l). reflexivity. }
      destruct Hkeep as [l Hl]. rewrite Hl, rev_app_distr in E.
      cbn [rev app] in E. injection E as <- _. exact Hhd. }
    rewrite Hns in B. discriminate.
Qed.

Lemma nonblank_trim (s : jsstring) : nonblank (trim s) = nonblank s.
Proof. rewrite !nonblank_blank, blank_trim. reflexivity. Qed.

(** *** The patterns, told without patterns *)

Lemma lazy_star_first_header :
  forall s i cap,
    matcher (Star false any_char) (mkState i s cap)
            (fun y => matcher (Group header) y (fun z => Some z))
    = first_header_state i s.
Proof.
  induction s as [|ch s IH]; intros i cap.
  - rewrite matcher_Star_unfold. cbv zeta.
    rewrite matcher_Group, header_matcher. cbn [remaining starts_with_header].
    unfold any_char. rewrite matcher_Class_nil. reflexivity.
  - rewrite matcher_Star_unfold. cbv zeta.
    rewrite matcher_Group, header_matcher. cbn [remaining endIndex].
    cbn [first_header_state].
    destruct (starts_with_header (ch :: s)).
    + replace (i + 4 - i) with 4 by lia. reflexivity.
    + rewrite any_char_step. cbn [remaining]. rewrite shorter1. apply IH.
Qed.

Lemma first_header_state_text :
  forall s i,
    match first_header_state i s with
    | Some y =>
      from_first_header s
      = Some (match capture1 y with Some g => g | None => [] end
                ++ remaining y)
    | None => from_first_header s = None
    end.
Proof.
  induction s as [|ch s IH]; intros i.
  - reflexivity.
  - cbn [first_header_state from_first_header].
    destruct (starts_with_header (ch :: s)).
    + cbn [capture1 remaining]. rewrite firstn_skipn. reflexivity.
    + apply IH.
Qed.

(** The leading strip drops what comes before the first recognized
    header, and nothing when there is none. *)
Lemma replace_strip_preamble (text : jsstring) :
  replace_by_group1 text stripRegex = strip_preamble text.
Proof.
  unfold replace_by_group1, exec, strip_preamble.
  assert (H0 : match_at stripRegex 0 text = first_header_state 0 text).
  { unfold match_at, stripRegex.
    rewrite matcher_Seq, matcher_AssertStart. cbn [endIndex Nat.eqb].
    rewrite matcher_Seq. apply lazy_star_first_header. }
  pose proof (first_header_state_text text 0) as Ht.
  destruct text as [|ch s]; cbn [exec_from]; rewrite H0;
    destruct (first_header_state 0 _) as [y|]; rewrite Ht;
    try reflexivity.
  rewrite exec_from_stripRegex_later. reflexivity.
Qed.

Lemma splitRegex_match_at (s : jsstring) (q : nat) :
  match_at splitRegex q s
  = if starts_with_header s then Some (mkState q s None) else None.
Proof.
  unfold match_at, splitRegex.
  rewrite matcher_Lookahead, header_matcher. cbn [remaining].
  destruct (starts_with_header s); reflexivity.
Qed.

(** The split cuts the text before every recognized header, and its fuel
    is never used up. *)
Lemma split_loop_cut_at_headers :
  forall rest fuel q cur,
    2 * length rest < fuel ->
    split_loop splitRegex fuel q cur rest = cut_at_headers cur rest.
Proof.
  induction rest as [|ch rest IH]; intros fuel q cur Hf.
  - destruct fuel as [|fuel]; [lia|]. reflexivity.
  - destruct fuel as [|fuel]; [lia|].
    cbn [length] in Hf.
    cbn [split_loop cut_at_headers].
    rewrite splitRegex_match_at.
    destruct (starts_with_header (ch :: rest)) eqn:Hh.
    + cbn [endIndex remaining]. rewrite Nat.eqb_refl. cbn [andb].
      destruct cur as [|c0 cur].
      * cbn [app]. apply IH. lia.
      * (* the piece is closed; the match at the same place, now at the
           start of the new piece, is passed over *)
        f_equal. destruct fuel as [|fuel]; [lia|].
        cbn [split_loop]. rewrite splitRegex_match_at, Hh.
        cbn [endIndex]. rewrite Nat.eqb_refl. cbn [andb app].
        apply IH. lia.
    + cbn [andb]. apply IH. lia.
Qed.

Lemma split_cut_at_headers (s : jsstring) :
  RegExp.split s splitRegex = cut_at_headers [] s.
Proof.
  unfold RegExp.split. destruct s as [|ch s].
  - rewrite splitRegex_match_at. reflexivity.
  - apply split_loop_cut_at_headers. simpl. lia.
Qed.

(** formatResponseText without the patterns. *)
Lemma formatResponseText_cuts (text : jsstring) :
  formatResponseText text
  = map render_section (cut_at_headers [] (trim (strip_preamble text))).
Proof.
  unfold formatResponseText.
  rewrite replace_strip_preamble, split_cut_at_headers. reflexivity.
Qed.

End FormatFacts.

(** ** What formatResponseText shows *)

Module FormatClaims.
Import RegExp JSON JS Chat Shapes RegExpFacts FormatFacts.

(** C1, as the claim states it, fails: the greeting of the greeting
    variant, an assistant message without any header, is left as it is by
    the leading strip and is shown as one section, titled with the whole
    text. *)
Lemma formatResponseText_greeting_is_shown :
  has_header greeting_text = false
  /\ replace_by_group1 greeting_text stripRegex = greeting_text
  /\ shown (formatResponseText greeting_text)
     = [mkSection greeting_text []]
  /\ shown (formatResponseText greeting_text) <> [].
Proof.
  split; [vm_compute; reflexivity|].
  split; [vm_compute; reflexivity|].
  split; [vm_compute; reflexivity|].
  vm_compute. discriminate.
Qed.

(** C1, amended: for every text without a recognized header (no "## "
    followed by a code unit of the marker class), the leading strip
    leaves the text as it is and formatResponseText gives one chunk, the
    trimmed text: nothing is shown when the text is empty or white space
    only, and otherwise one section is shown, whose title is the trimmed
    first line of the trimmed text and whose bullets come from the
    remaining lines. *)
Theorem formatResponseText_without_header (text : jsstring) :
  has_header text = false ->
  replace_by_group1 text stripRegex = text
  /\ formatResponseText text = [render_section (trim text)]
  /\ shown (formatResponseText text)
     = if blank text then []
       else
         let lines := split_on LF (trim text) in
         [mkSection
            (trim (hd [] lines))
            (map trim
                 (filter nonblank (split_on BULLET (join [LF] (tl lines)))))].
Proof.
  intros H.
  assert (Hf : formatResponseText text = [render_section (trim text)]).
  { unfold formatResponseText. rewrite (replace_no_header _ H).
    rewrite split_no_header by (apply has_header_trim, H). reflexivity. }
  split; [apply replace_no_header, H|]. split; [exact Hf|].
  rewrite Hf. unfold render_section.
  rewrite nonblank_trim, nonblank_blank, negb_involutive.
  destruct (blank text); reflexivity.
Qed.

Lemma formatResponseText_without_header_witness :
  replace_by_group1 (js:"  Hello there ") stripRegex = js:"  Hello there "
  /\ formatResponseText (js:"  Hello there ")
     = [render_section (trim (js:"  Hello there "))]
  /\ shown (formatResponseText (js:"  Hello there "))
     = [mkSection (js:"Hello there") []].
Proof.
  apply (formatResponseText_without_header (js:"  Hello there ")).
  vm_compute. reflexivity.
Defined.

(** C6: formatResponseText applied to "## 🌟 Title", a line feed, "•A", a
    line feed and "•B" gives exactly one section, whose title is
    "## 🌟 Title" and whose bullets are "A" and "B". *)
Theorem formatResponseText_title_two_bullets :
  formatResponseText
    (js:"## 🌟 Title" ++ [LF] ++ js:"•A" ++ [LF] ++ js:"•B")
  = [Some (mkSection (js:"## 🌟 Title") [js:"A"; js:"B"])].
Proof. vm_compute. reflexivity. Qed.

Lemma is_prefix_cons (a : code_unit) (p s : jsstring) :
  is_prefix (a :: p) s = true ->
  exists t, s = a :: t /\ is_prefix p t = true.
Proof.
  destruct s as [|b t]; [discriminate|]. cbn [is_prefix]. intros H.
  apply andb_true_iff in H. destruct H as [Hab Ht].
  apply N.eqb_eq in Hab. subst b. exists t. split; [reflexivity|assumption].
Qed.

(** A header with one of the four markers is a recognized header. *)
Lemma documented_header_recognized (s : jsstring) :
  starts_with_documented_header s = true -> starts_with_header s = true.
Proof.
  unfold starts_with_documented_header, documented_markers.
  cbn [existsb]. rewrite orb_false_r. intros H.
  repeat match type of H with
         | (_ || _)%bool = true => apply orb_true_iff in H; destruct H as [H|H]
         end;
    match type of H with
    | is_prefix ?p s = true =>
      let p' := eval vm_compute in p in change p with p' in H
    end;
    repeat match type of H with
           | is_prefix (_ :: _) _ = true =>
             let t := fresh "t" in
             apply is_prefix_cons in H; destruct H as (t & -> & H)
           end;
    reflexivity.
Qed.

(** C10: the header pattern matches wherever "## " is followed by one
    code unit of the class, the match being these four code units, and
    formatResponseText drops what comes before the first such place and
    cuts the text before each of them.  Every header with one of the
    four markers is recognized, and so are others: the class holds the
    high surrogate U+D83D that 😀 starts with, so "## 😀" is a header,
    although 😀 is none of the four markers; the text before it is
    dropped and the text is split there. *)
Theorem header_recognition_is_broader :
  (forall (s : jsstring) (i : nat),
      match_at header i s
      = if starts_with_header s
        then Some (mkState (i + 4) (skipn 4 s) None)
        else None)
  /\ (forall text : jsstring,
         formatResponseText text
         = map render_section
               (cut_at_headers [] (trim (strip_preamble text))))
  /\ (forall s : jsstring,
         implb (starts_with_documented_header s) (starts_with_header s)
         = true)
  /\ existsb (fun m => (hd 0%N (js:"😀") =? m)%N) markers = true
  /\ starts_with_documented_header (js:"## 😀 Fun") = false
  /\ starts_with_header (js:"## 😀 Fun") = true
  /\ formatResponseText
       (js:"Intro" ++ [LF] ++ js:"## 😀 Fun" ++ [LF] ++ js:"•x")
     = [Some (mkSection (js:"## 😀 Fun") [js:"x"])]
  /\ formatResponseText
       (js:"## 🌟 One" ++ [LF] ++ js:"•a" ++ [LF]
          ++ js:"## 😀 Two" ++ [LF] ++ js:"•b")
     = [Some (mkSection (js:"## 🌟 One") [js:"a"]);
        Some (mkSection (js:"## 😀 Two") [js:"b"])].
Proof.
  split.
  { intros s i. unfold match_at. apply header_matcher. }
  split.
  { exact formatResponseText_cuts. }
  split.
  { intros s. destruct (starts_with_documented_header s) eqn:E;
      [|reflexivity].
    rewrite (documented_header_recognized _ E). reflexivity. }
  repeat split; vm_compute; reflexivity.
Qed.

End FormatClaims.

(** ** Submitting and resetting *)

Module ChatClaims.
Import RegExp JSON JS Chat Shapes FormatFacts.

(** The guard of handleSubmit lets a submission through exactly when the
    input is not blank and no request is in flight. *)
Lemma submit_guard (st : ChatState) :
  (negb (ToBoolean (Str (trim (input st)))) || isLoading st)%bool
  = (blank (input st) || isLoading st)%bool.
Proof.
  f_equal. rewrite <- (negb_involutive (blank (input st))).
  rewrite <- nonblank_blank. reflexivity.
Qed.

Lemma handleSubmit_send_accepted (st : ChatState) :
  blank (input st) = false ->
  isLoading st = false ->
  handleSubmit_send st
  = (mkChat (messages st ++ [mkMessage user (Str (input st))]) [] true,
     Some (messages st ++ [mkMessage user (Str (input st))])).
Proof.
  intros Hb Hl. unfold handleSubmit_send.
  rewrite submit_guard, Hb, Hl. reflexivity.
Qed.

(** C2, as the claim states it, fails: after the non-OK response whose
    body is {"text":"overloaded"} the assistant message added is built
    from the body, it is not the fallback. *)
Lemma handleSubmit_non_ok_response_not_fallback :
  let st := mkChat [] (js:"hi") false in
  let res := Response false (jsq "{'text':'overloaded'}") in
  handleSubmit res st
  = (Normal (mkChat [mkMessage user (Str (js:"hi"));
                     mkMessage assistant (Str (js:"overloaded"))]
                    [] false),
     Some [mkMessage user (Str (js:"hi"))])
  /\ fst (handleSubmit res st)
     <> Normal (mkChat (messages st ++ [mkMessage user (Str (js:"hi"));
                                         fallback])
                       [] false).
Proof.
  split; [vm_compute; reflexivity|]. vm_compute. discriminate.
Qed.

(** C2, amended: for every non-blank user text submitted while no request
    is in flight, if [fetch] rejects (network failure) or the body of
    the response does not decode as JSON, the conversation gains exactly
    two messages, the user message followed by the fallback assistant
    message "Sorry, there was an error processing your request.", the
    input is cleared and the in-flight flag is false afterwards; one
    request was sent, carrying the conversation with the user message.
    The status of the response is not read: a non-OK response is handled
    like an OK response with the same body. *)
Theorem handleSubmit_failure (st : ChatState) (res : FetchResult) :
  blank (input st) = false ->
  isLoading st = false ->
  request_failed res = true ->
  let userMessage := mkMessage user (Str (input st)) in
  handleSubmit res st
  = (Normal (mkChat (messages st ++ [userMessage; fallback]) [] false),
     Some (messages st ++ [userMessage]))
  /\ content fallback
     = Str (js:"Sorry, there was an error processing your request.")
  /\ forall body,
      handleSubmit (Response false body) st
      = handleSubmit (Response true body) st.
Proof.
  intros Hb Hl Hres userMessage.
  split; [|split; [reflexivity|intros body; reflexivity]].
  unfold handleSubmit. rewrite handleSubmit_send_accepted by assumption.
  unfold handleSubmit_receive. cbn [messages input].
  fold userMessage. rewrite <- app_assoc. cbn [app].
  destruct res as [|ok body]; [reflexivity|].
  cbn [request_failed] in Hres.
  destruct (JSON.parse body); [discriminate|reflexivity].
Qed.

Lemma handleSubmit_failure_witness :
  let st := mkChat [greeting] (js:"dry skin?") false in
  handleSubmit (Response false (js:"<html>Bad Gateway</html>")) st
  = (Normal (mkChat [greeting; mkMessage user (Str (js:"dry skin?"));
                     fallback] [] false),
     Some [greeting; mkMessage user (Str (js:"dry skin?"))]).
Proof.
  intros st.
  apply (handleSubmit_failure st
           (Response false (js:"<html>Bad Gateway</html>")));
    vm_compute; reflexivity.
Defined.

(** C7: handleSubmit with an input that is empty or white space only, or
    while a request is in flight, does nothing: conversation, input and
    in-flight flag are as before, and no request is sent. *)
Theorem handleSubmit_noop (st : ChatState) (res : FetchResult) :
  blank (input st) = true \/ isLoading st = true ->
  handleSubmit_send st = (st, None)
  /\ handleSubmit res st = (Normal st, None).
Proof.
  intros H.
  assert (Hs : handleSubmit_send st = (st, None)).
  { unfold handleSubmit_send. rewrite submit_guard.
    destruct H as [H|H]; rewrite H; [|rewrite orb_true_r]; reflexivity. }
  split; [exact Hs|]. unfold handleSubmit. rewrite Hs. reflexivity.
Qed.

Lemma handleSubmit_noop_witness :
  (handleSubmit NetworkError (mkChat [greeting] [] false)
   = (Normal (mkChat [greeting] [] false), None))
  /\ (handleSubmit NetworkError (mkChat [greeting] (js:"   ") false)
      = (Normal (mkChat [greeting] (js:"   ") false), None))
  /\ (handleSubmit NetworkError (mkChat [greeting] (js:"hello") true)
      = (Normal (mkChat [greeting] (js:"hello") true), None)).
Proof.
  split; [|split].
  - apply (handleSubmit_noop (mkChat [greeting] [] false) NetworkError).
    left. reflexivity.
  - apply (handleSubmit_noop (mkChat [greeting] (js:"   ") false)
                             NetworkError).
    left. vm_compute. reflexivity.
  - apply (handleSubmit_noop (mkChat [greeting] (js:"hello") true)
                             NetworkError).
    right. reflexivity.
Defined.

(** The greeting written in handleReset is the greeting written in
    useState. *)
Lemma reset_greeting_is_greeting : reset_greeting_text = greeting_text.
Proof. vm_compute. reflexivity. Qed.

(** C8: whatever the conversation holds, handleReset replaces it with
    the initial conversation of the variant, the one of the page load:
    no message in the empty-start variant, the greeting alone in the
    greeting variant (the greeting written in handleReset is the one
    written in useState).  Input and in-flight flag are left alone. *)
Theorem handleReset_restores_initial (st : ChatState) :
  messages (handleReset empty_start st) = messages (initial empty_start)
  /\ messages (handleReset empty_start st) = []
  /\ messages (handleReset with_greeting st)
     = messages (initial with_greeting)
  /\ messages (handleReset with_greeting st) = [greeting]
  /\ role greeting = assistant
  /\ (forall v, input (handleReset v st) = input st
                /\ isLoading (handleReset v st) = isLoading st).
Proof.
  assert (Hg : messages (handleReset with_greeting st) = [greeting]).
  { cbn [handleReset messages with_greeting resetMessages].
    rewrite reset_greeting_is_greeting. reflexivity. }
  split; [reflexivity|]. split; [reflexivity|].
  split; [exact Hg|]. split; [exact Hg|].
  split; [reflexivity|]. intros v. split; reflexivity.
Qed.

End ChatClaims.

(** ** More on the matcher *)

Module RegExpFacts2.
Import RegExp RegExpFacts.

(** What the continuation receives lies ahead in the same input: the
    matcher has consumed a prefix [w] of what remained. *)
Lemma matcher_reaches (r : regex) :
  forall x c z, matcher r x c = Some z ->
  exists y w, c y = Some z /\ remaining x = w ++ remaining y
              /\ endIndex y = endIndex x + length w.
Proof.
  induction r; intros x c z H; cbn [matcher] in H.
  - exists x, []. repeat split; [assumption|simpl; lia].
  - destruct (remaining x) as [|ch tl] eqn:E; [discriminate|].
    destruct (class_matches negated atoms ch); [|discriminate].
    eexists. exists [ch]. split; [eassumption|]. simpl. split; [reflexivity|lia].
  - apply IHr1 in H. destruct H as (y & w & H & Hr & Hi).
    apply IHr2 in H. destruct H as (y' & w' & H & Hr' & Hi').
    exists y', (w ++ w'). split; [assumption|].
    rewrite Hr, Hr', <- app_assoc, length_app. split; [reflexivity|lia].
  - destruct (matcher r1 x c) eqn:E.
    + injection H as <-. apply IHr1 in E. exact E.
    + apply IHr2 in H. exact H.
  - remember (S (length (remaining x))) as fuel eqn:Hfuel. clear Hfuel.
    revert x z H. induction fuel as [|fuel IHf]; intros x z H;
      [discriminate|].
    cbn [RepeatMatcher] in H. cbv zeta in H.
    assert (Hit : forall z',
      matcher r x (fun y =>
        if length (remaining y) <? length (remaining x)
        then RepeatMatcher (matcher r) greedy fuel y c else None) = Some z' ->
      exists y w, c y = Some z' /\ remaining x = w ++ remaining y
                  /\ endIndex y = endIndex x + length w).
    { intros z' Hz'. apply IHr in Hz'. destruct Hz' as (y & w & Hy & Hr & Hi).
      destruct (length (remaining y) <? length (remaining x)); [|discriminate].
      apply IHf in Hy. destruct Hy as (y' & w' & Hy' & Hr' & Hi').
      exists y', (w ++ w'). split; [assumption|].
      rewrite Hr, Hr', <- app_assoc, length_app. split; [reflexivity|lia]. }
    destruct greedy.
    + destruct (matcher r x _) eqn:E.
      * injection H as <-. apply Hit. reflexivity.
      * exists x, []. repeat split; [assumption|simpl; lia].
    + destruct (c x) eqn:E.
      * injection H as <-. exists x, []. repeat split; [assumption|simpl; lia].
      * apply Hit. assumption.
  - apply IHr in H. destruct H as (y & w & H & Hr & Hi).
    eexists. exists w. split; [eassumption|]. simpl. split; assumption.
  - apply IHr in H. exact H.
  - destruct (matcher r x (fun y => Some y)); [|discriminate].
    eexists. exists []. split; [eassumption|]. simpl. split; [reflexivity|lia].
  - destruct (endIndex x =? 0)%nat; [|discriminate].
    exists x, []. repeat split; [assumption|simpl; lia].
Qed.

End RegExpFacts2.

(** ** More on extractProducts *)

Module ExtractExtras.
Import RegExp JSON JS Chat Shapes Shapes2.
Import RegExpFacts RegExpFacts2 ExtractFacts.

#[local] Arguments matcher : simpl never.
#[local] Arguments RepeatMatcher : simpl never.

Lemma brace_free_no_lbrace (s : jsstring) :
  brace_free s = true -> no_lbrace s = true.
Proof.
  unfold brace_free, no_lbrace, is_brace.
  induction s as [|ch s IH]; [reflexivity|]. cbn [forallb]. intros H.
  apply andb_true_iff in H. destruct H as [Hch Hs].
  rewrite (IH Hs), andb_true_r.
  destruct (ch =? LBRACE)%N; [discriminate|reflexivity].
Qed.

Lemma is_brace_false (ch : code_unit) :
  is_brace ch = false ->
  (ch =? LBRACE)%N = false /\ (ch =? RBRACE)%N = false.
Proof. unfold is_brace. intros H. apply orb_false_iff in H. exact H. Qed.

(** [[^{}]*] followed by a closing brace fails on text without braces
    that runs into an opening brace. *)
Lemma inner_star_blocked :
  forall b i rest cap c,
    brace_free b = true ->
    matcher (Star true no_brace) (mkState i (b ++ LBRACE :: rest) cap)
            (fun y => matcher (Chr RBRACE) y c) = None.
Proof.
  induction b as [|ch b IH]; intros i rest cap c Hb.
  - cbn [app]. rewrite matcher_Star_unfold. cbv zeta.
    rewrite no_brace_stop by reflexivity.
    apply matcher_Chr_other. reflexivity.
  - apply brace_free_cons in Hb. destruct Hb as [Hch Hb].
    destruct (is_brace_false _ Hch) as [_ Hr].
    cbn [app]. rewrite matcher_Star_unfold. cbv zeta.
    rewrite no_brace_step by assumption.
    cbn [remaining]. rewrite shorter1, IH by assumption.
    apply matcher_Chr_other. assumption.
Qed.

(** The outer star followed by a closing brace fails on text without
    braces that runs into an opening brace after which, before any
    closing brace, comes another opening brace. *)
Lemma body_star_blocked :
  forall b b2 i rest cap c,
    brace_free b = true ->
    brace_free b2 = true ->
    matcher body_star
            (mkState i (b ++ LBRACE :: b2 ++ LBRACE :: rest) cap)
            (fun y => matcher (Chr RBRACE) y c) = None.
Proof.
  induction b as [|ch b IH]; intros b2 i rest cap c Hb Hb2.
  - cbn [app]. unfold body_star. rewrite matcher_Star_unfold. cbv zeta.
    rewrite matcher_NonCapture, matcher_Alt.
    rewrite no_brace_stop by reflexivity.
    rewrite matcher_NonCapture, matcher_Seq, matcher_Chr, matcher_Seq.
    rewrite inner_star_blocked by assumption.
    apply matcher_Chr_other. reflexivity.
  - apply brace_free_cons in Hb. destruct Hb as [Hch Hb].
    destruct (is_brace_false _ Hch) as [Hl Hr].
    cbn [app]. unfold body_star. rewrite matcher_Star_unfold. cbv zeta.
    rewrite matcher_NonCapture, matcher_Alt.
    rewrite no_brace_step by assumption.
    cbn [remaining]. rewrite shorter1. fold body_star.
    rewrite IH by assumption.
    rewrite matcher_NonCapture, matcher_Seq.
    rewrite matcher_Chr_other by assumption.
    apply matcher_Chr_other. assumption.
Qed.

(** The pattern does not match at the opening brace of an object whose
    braces nest two levels. *)
Lemma jsonRegex_two_levels (b1 b2 rest : jsstring) (i : nat) :
  brace_free b1 = true ->
  brace_free b2 = true ->
  match_at jsonRegex i (LBRACE :: b1 ++ LBRACE :: b2 ++ LBRACE :: rest)
  = None.
Proof.
  intros H1 H2. unfold match_at. rewrite jsonRegex_eq.
  rewrite matcher_Seq, matcher_Chr, matcher_Seq.
  apply body_star_blocked; assumption.
Qed.

Lemma exec_from_object (ps : list piece) (i : nat) (post : jsstring) :
  forallb piece_ok ps = true ->
  exec_from jsonRegex i (object_text ps ++ post)
  = Some (i, mkState (i + length (object_text ps)) post None).
Proof.
  intros Hok. pose proof (jsonRegex_object ps i post Hok) as Hm.
  destruct (object_text ps ++ post) eqn:E.
  - discriminate.
  - cbn [exec_from]. rewrite Hm. reflexivity.
Qed.

(** X5: extractProducts looks at the first brace group only: when no
    opening brace comes before an object whose braces nest one level at
    most, the text before and after the object has no influence on the
    result, be it a product or null, and a second object later in the
    text is never used. *)
Theorem extractProducts_ignores_surroundings
        (v : Variant) (pre post : jsstring) (ps : list piece) :
  no_lbrace pre = true ->
  forallb piece_ok ps = true ->
  extractProducts v (pre ++ object_text ps ++ post)
  = extractProducts v (object_text ps).
Proof.
  intros Hpre Hok. unfold extractProducts, extractProducts_try.
  rewrite (string_match_object pre post ps Hpre Hok).
  pose proof (string_match_object [] [] ps eq_refl Hok) as H0.
  cbn [app] in H0. rewrite app_nil_r in H0. rewrite H0. reflexivity.
Qed.

(** The text is: I recommend {"name":"Serum"} for you, not
    {"name":"Cream"}. *)
Lemma extractProducts_ignores_surroundings_witness :
  extractProducts empty_start
    (js:"I recommend " ++ object_text [Plain (jsq "'name':'Serum'")]
       ++ jsq " for you, not {'name':'Cream'}.")
  = extractProducts empty_start (object_text [Plain (jsq "'name':'Serum'")]).
Proof.
  apply (@extractProducts_ignores_surroundings empty_start
           (js:"I recommend ") (jsq " for you, not {'name':'Cream'}.")
           [Plain (jsq "'name':'Serum'")]);
    vm_compute; reflexivity.
Defined.

(** X6: a product wrapped in another object is unwrapped when it
    holds a nested pair itself.  When no opening brace comes before the
    wrapper, the wrapper has only text without braces before the
    wrapped object, and the wrapped object starts with text without
    braces followed by a brace pair (three levels of braces in all),
    the pattern does not match at the brace of the wrapper; the first
    match is the wrapped object, and when it parses extractProducts
    returns one product read from the wrapped object: the members of
    the wrapper are not looked at. *)
Theorem extractProducts_unwraps_second_level
        (v : Variant) (pre b1 b2 b3 post : jsstring) (ps : list piece)
        (ms : list (jsstring * json)) :
  no_lbrace pre = true ->
  brace_free b1 = true ->
  brace_free b2 = true ->
  brace_free b3 = true ->
  forallb piece_ok ps = true ->
  JSON.parse (object_text (Plain b2 :: Nested b3 :: ps))
  = Some (JObject ms) ->
  string_match
    (pre ++ LBRACE :: b1 ++ object_text (Plain b2 :: Nested b3 :: ps) ++ post)
    jsonRegex
  = Some (object_text (Plain b2 :: Nested b3 :: ps))
  /\ extractProducts v
       (pre ++ LBRACE :: b1
            ++ object_text (Plain b2 :: Nested b3 :: ps) ++ post)
     = Some [{| name := own_property (js:"name") ms;
                description := own_property (js:"description") ms;
                price := or_else (own_property (js:"price") ms)
                                 (Str (pricePlaceholder v));
                url := or_else (own_property (js:"url") ms) (Str (js:"#"));
                image_url := or_else (own_property (js:"image_url") ms)
                                     (Str []);
                ingredients := or_else (own_property (js:"ingredients") ms)
                                       (Json (JArray []));
                advantages := or_else (own_property (js:"advantages") ms)
                                      (Json (JArray []));
                suitability := or_else (own_property (js:"suitability") ms)
                                       (Json (JArray []));
                questions := or_else (own_property (js:"questions") ms)
                                     (Json (JArray [])) |}].
Proof.
  intros Hpre H1 H2 H3 Hps Hparse.
  set (inner := object_text (Plain b2 :: Nested b3 :: ps)) in *.
  assert (Hok : forallb piece_ok (Plain b2 :: Nested b3 :: ps) = true).
  { cbn [forallb piece_ok]. rewrite H2, H3, Hps. reflexivity. }
  assert (Hm : string_match (pre ++ LBRACE :: b1 ++ inner ++ post) jsonRegex
               = Some inner).
  { unfold string_match, exec.
    rewrite exec_from_jsonRegex_skip by assumption.
    cbn [exec_from].
    assert (Hshape : exists rest,
               inner ++ post = LBRACE :: b2 ++ LBRACE :: rest).
    { unfold inner, object_text, content_text.
      cbn [flat_map piece_text app].
      rewrite <- !app_assoc. cbn [app]. eexists. reflexivity. }
    destruct Hshape as [rest Hshape].
    rewrite Hshape, jsonRegex_two_levels by assumption.
    rewrite <- Hshape.
    rewrite exec_from_jsonRegex_skip by (apply brace_free_no_lbrace, H1).
    unfold inner. rewrite exec_from_object by assumption.
    cbn [endIndex]. fold inner.
    replace (pre ++ LBRACE :: b1 ++ inner ++ post)
      with ((pre ++ LBRACE :: b1) ++ inner ++ post)
      by (rewrite <- app_assoc; reflexivity).
    replace (S (0 + length pre) + length b1)
      with (length (pre ++ LBRACE :: b1))
      by (rewrite length_app; simpl; lia).
    rewrite skipn_length_app.
    replace (length (pre ++ LBRACE :: b1) + length inner
             - length (pre ++ LBRACE :: b1))
      with (length inner) by lia.
    rewrite firstn_length_app. reflexivity. }
  split; [exact Hm|].
  unfold extractProducts, extractProducts_try.
  rewrite Hm, Hparse. reflexivity.
Qed.

(** The text is: {"name":"W","product":{"name":"X","meta":{"k":1}}};
    the name of the product is X, not W. *)
Lemma extractProducts_unwraps_second_level_witness :
  let b1 := jsq "'name':'W','product':" in
  let b2 := jsq "'name':'X','meta':" in
  let b3 := jsq "'k':1" in
  let ms := [(js:"name", JString (js:"X"));
             (js:"meta", JObject [(js:"k", JNumber false 1 0)])] in
  string_match
    ([] ++ LBRACE :: b1 ++ object_text (Plain b2 :: Nested b3 :: [])
        ++ jsq "}")
    jsonRegex
  = Some (object_text (Plain b2 :: Nested b3 :: []))
  /\ extractProducts empty_start
       ([] ++ LBRACE :: b1
           ++ object_text (Plain b2 :: Nested b3 :: []) ++ jsq "}")
     = Some [{| name := own_property (js:"name") ms;
                description := own_property (js:"description") ms;
                price := or_else (own_property (js:"price") ms)
                                 (Str (pricePlaceholder empty_start));
                url := or_else (own_property (js:"url") ms) (Str (js:"#"));
                image_url := or_else (own_property (js:"image_url") ms)
                                     (Str []);
                ingredients := or_else (own_property (js:"ingredients") ms)
                                       (Json (JArray []));
                advantages := or_else (own_property (js:"advantages") ms)
                                      (Json (JArray []));
                suitability := or_else (own_property (js:"suitability") ms)
                                       (Json (JArray []));
                questions := or_else (own_property (js:"questions") ms)
                                     (Json (JArray [])) |}].
Proof.
  intros b1 b2 b3 ms.
  apply (@extractProducts_unwraps_second_level empty_start
           [] b1 b2 b3 (jsq "}") [] ms);
    vm_compute; reflexivity.
Defined.

(** The product of the text above, and of the same wrapper around a
    product without a nested pair: there the match is the wrapper, and
    the name is that of the wrapper. *)
Lemma extractProducts_unwraps_second_level_example :
  (exists p,
      extractProducts empty_start
        (jsq "{'name':'W','product':{'name':'X','meta':{'k':1}}}")
      = Some [p]
      /\ name p = Str (js:"X"))
  /\ (exists p,
         extractProducts empty_start
           (jsq "{'name':'W','product':{'name':'X'}}")
         = Some [p]
         /\ name p = Str (js:"W")).
Proof.
  split; eexists; (split; [vm_compute; reflexivity|]); reflexivity.
Qed.

Lemma In_skipn (A : Type) (x : A) (k : nat) (l : list A) :
  In x (skipn k l) -> In x l.
Proof.
  intros H. rewrite <- (firstn_skipn k l). apply in_or_app. right. exact H.
Qed.

(** Every match of the pattern holds a closing brace. *)
Lemma string_match_needs_rbrace (text m : jsstring) :
  string_match text jsonRegex = Some m -> In RBRACE text.
Proof.
  unfold string_match, exec. intros H.
  destruct (exec_from jsonRegex 0 text) as [[j y]|] eqn:E; [|discriminate].
  clear H. apply exec_from_found in E. destruct E as (k & -> & _ & E).
  unfold match_at in E. rewrite jsonRegex_eq, matcher_Seq in E.
  apply matcher_reaches in E. destruct E as (y1 & w1 & E & Hr1 & _).
  rewrite matcher_Seq in E.
  apply matcher_reaches in E. destruct E as (y2 & w2 & E & Hr2 & _).
  cbn [remaining] in Hr1.
  destruct y2 as [i2 rem2 cap2]. cbn [remaining] in Hr2.
  destruct rem2 as [|ch tl].
  { unfold Chr in E. rewrite matcher_Class_nil in E. discriminate. }
  rewrite matcher_Chr_cases in E.
  destruct (ch =? RBRACE)%N eqn:Ech; [|discriminate].
  apply N.eqb_eq in Ech. subst ch.
  apply (In_skipn _ k). rewrite Hr1, Hr2.
  apply in_or_app. right. apply in_or_app. right. left. reflexivity.
Qed.

(** X7: a text without an opening brace, or without a closing brace,
    has no match of the pattern, and extractProducts returns null; the
    empty text is such a text. *)
Theorem extractProducts_needs_both_braces (v : Variant) (text : jsstring) :
  no_lbrace text = true \/ no_rbrace text = true ->
  string_match text jsonRegex = None /\ extractProducts v text = None.
Proof.
  intros H.
  assert (Hm : string_match text jsonRegex = None).
  { destruct H as [H|H].
    - unfold string_match, exec.
      rewrite <- (app_nil_r text).
      rewrite exec_from_jsonRegex_skip by assumption.
      reflexivity.
    - destruct (string_match text jsonRegex) as [m|] eqn:E; [|reflexivity].
      apply string_match_needs_rbrace in E.
      unfold no_rbrace in H. rewrite forallb_forall in H.
      specialize (H _ E). rewrite N.eqb_refl in H. discriminate. }
  split; [exact Hm|].
  unfold extractProducts, extractProducts_try. rewrite Hm. reflexivity.
Qed.

Lemma extractProducts_needs_both_braces_witness :
  (extractProducts empty_start [] = None)
  /\ (extractProducts empty_start (js:"No product today.") = None)
  /\ (extractProducts empty_start (jsq "{'name':'Serum'") = None).
Proof.
  split; [|split].
  - apply (extractProducts_needs_both_braces empty_start []).
    left. reflexivity.
  - apply (extractProducts_needs_both_braces empty_start
             (js:"No product today.")).
    left. vm_compute. reflexivity.
  - apply (extractProducts_needs_both_braces empty_start
             (jsq "{'name':'Serum'")).
    right. vm_compute. reflexivity.
Defined.

End ExtractExtras.

(** ** More on formatResponseText *)

Module FormatExtras.
Import RegExp JSON JS Chat Shapes Shapes2 RegExpFacts FormatFacts.

(** *** trim *)

Lemma trimStart_snoc (l : jsstring) (x : code_unit) :
  trimStart (l ++ [x])
  = match trimStart l with
    | [] => if is_space x then [] else [x]
    | t => t ++ [x]
    end.
Proof.
  induction l as [|c l IH]; [reflexivity|].
  cbn [app trimStart]. destruct (is_space c); [exact IH|reflexivity].
Qed.

Lemma trimEnd_cons (x : code_unit) (s : jsstring) :
  trimEnd (x :: s)
  = match trimEnd s with
    | [] => if is_space x then [] else [x]
    | t => x :: t
    end.
Proof.
  unfold trimEnd. cbn [rev]. rewrite trimStart_snoc.
  destruct (trimStart (rev s)) as [|c t] eqn:E.
  - cbn [rev]. destruct (is_space x); reflexivity.
  - rewrite rev_app_distr. cbn [rev app].
    destruct (rev t ++ [c]) eqn:E'; [|reflexivity].
    destruct (rev t); discriminate.
Qed.

Lemma trimEnd_nil : trimEnd [] = [].
Proof. reflexivity. Qed.

(** What [trim] leaves starts with a code unit that is not white
    space. *)
Lemma trimEnd_head (c : code_unit) (s t : jsstring) (a : code_unit) :
  is_space c = false -> trimEnd (c :: s) = a :: t -> a = c.
Proof.
  intros Hc. rewrite trimEnd_cons, Hc.
  destruct (trimEnd s); intros H; injection H as <- _; reflexivity.
Qed.

Lemma trimStart_head (s t : jsstring) (a : code_unit) :
  trimStart s = a :: t -> is_space a = false.
Proof.
  induction s as [|c s IH]; [discriminate|].
  cbn [trimStart]. destruct (is_space c) eqn:E; [exact IH|].
  intros H. injection H as <- _. exact E.
Qed.

Lemma trim_head (s t : jsstring) (a : code_unit) :
  trim s = a :: t -> is_space a = false.
Proof.
  unfold trim. destruct (trimStart s) as [|c r] eqn:E; [discriminate|].
  pose proof (@trimStart_head s r c E) as Hc. intros H.
  rewrite (@trimEnd_head c r t a Hc H). exact Hc.
Qed.

Lemma trimStart_fixed (s : jsstring) :
  match s with [] => True | c :: _ => is_space c = false end ->
  trimStart s = s.
Proof.
  destruct s as [|c s]; [reflexivity|]. intros H. cbn [trimStart].
  rewrite H. reflexivity.
Qed.

Lemma trimStart_idem (s : jsstring) : trimStart (trimStart s) = trimStart s.
Proof.
  apply trimStart_fixed. destruct (trimStart s) as [|c t] eqn:E; [exact I|].
  apply (@trimStart_head s t c E).
Qed.

Lemma trimEnd_idem (s : jsstring) : trimEnd (trimEnd s) = trimEnd s.
Proof.
  unfold trimEnd. rewrite rev_involutive, trimStart_idem. reflexivity.
Qed.

Lemma trim_idem (s : jsstring) : trim (trim s) = trim s.
Proof.
  unfold trim at 1.
  rewrite (trimStart_fixed (trim s)).
  - unfold trim. apply trimEnd_idem.
  - destruct (trim s) as [|c t] eqn:E; [exact I|]. apply (@trim_head s t c E).
Qed.

Lemma In_trimStart (c : code_unit) (s : jsstring) :
  In c (trimStart s) -> In c s.
Proof.
  destruct (trimStart_suffix s) as [w Hw]. intros H.
  rewrite Hw. apply in_or_app. right. exact H.
Qed.

Lemma In_trim (c : code_unit) (s : jsstring) : In c (trim s) -> In c s.
Proof.
  unfold trim. intros H. apply In_trimStart.
  destruct (trimEnd_prefix (trimStart s)) as [w Hw].
  rewrite Hw. apply in_or_app. left. exact H.
Qed.

Lemma trim_nil_iff (s : jsstring) : trim s = [] <-> blank s = true.
Proof.
  pose proof (nonblank_blank s) as H. unfold nonblank in H.
  destruct (trim s); destruct (blank s); try discriminate;
    split; (reflexivity || discriminate).
Qed.


(** *** Headers *)

Lemma starts_with_header_inv (s : jsstring) :
  starts_with_header s = true ->
  exists u r, s = 35%N :: 35%N :: 32%N :: u :: r
              /\ existsb (fun m => (u =? m)%N) markers = true.
Proof.
  destruct s as [|a [|b [|c [|u r]]]]; try discriminate.
  cbn [starts_with_header]. intros H.
  apply andb_true_iff in H. destruct H as [H Hu].
  apply andb_true_iff in H. destruct H as [H Hc].
  apply andb_true_iff in H. destruct H as [Ha Hb].
  apply N.eqb_eq in Ha, Hb, Hc. subst. exists u, r. split; [reflexivity|].
  exact Hu.
Qed.

(** The code units of the class: none is white space, the line feed or
    the number sign. *)
Lemma marker_unit (u : code_unit) :
  existsb (fun m => (u =? m)%N) markers = true ->
  is_space u = false /\ (u =? LF)%N = false /\ (u =? 35)%N = false.
Proof.
  rewrite markers_units. cbn [existsb]. intros H.
  repeat match type of H with
         | (_ || _)%bool = true => apply orb_true_iff in H; destruct H as [H|H]
         end;
    try discriminate H;
    apply N.eqb_eq in H; subst u; repeat split; reflexivity.
Qed.

Lemma starts_with_header_firstn (s t : jsstring) :
  s <> [] ->
  starts_with_header (s ++ t) = starts_with_header (s ++ firstn 3 t).
Proof.
  intros Hs.
  destruct s as [|a [|b [|c [|u s]]]]; [congruence| | | |reflexivity];
    destruct t as [|x [|y [|z t]]]; reflexivity.
Qed.

Lemma from_first_header_at (pre h : jsstring) :
  starts_with_header h = true ->
  has_header (pre ++ firstn 3 h) = false ->
  from_first_header (pre ++ h) = Some h.
Proof.
  intros Hh. induction pre as [|c pre IH]; intros Hpre.
  - cbn [app]. destruct h as [|a h]; [discriminate|].
    cbn [from_first_header]. rewrite Hh. reflexivity.
  - cbn [app] in *. apply has_header_cons in Hpre.
    destruct Hpre as [Hs Ht].
    cbn [from_first_header].
    change (c :: pre ++ h) with ((c :: pre) ++ h).
    rewrite starts_with_header_firstn by discriminate.
    cbn [app]. rewrite Hs. apply IH, Ht.
Qed.

Lemma strip_preamble_header (h : jsstring) :
  starts_with_header h = true -> strip_preamble h = h.
Proof.
  intros Hh. unfold strip_preamble.
  destruct h as [|a h]; [discriminate|].
  cbn [from_first_header]. rewrite Hh. reflexivity.
Qed.

Lemma strip_preamble_at (pre h : jsstring) :
  starts_with_header h = true ->
  has_header (pre ++ firstn 3 h) = false ->
  strip_preamble (pre ++ h) = h.
Proof.
  intros Hh Hpre. unfold strip_preamble.
  rewrite (from_first_header_at pre h Hh Hpre). reflexivity.
Qed.

(** X1: what comes before the first recognized header is dropped: a
    text that ends in [h], where [h] starts with a header and no header
    starts earlier, is formatted as [h] alone. *)
Theorem formatResponseText_drops_preamble (pre h : jsstring) :
  starts_with_header h = true ->
  has_header (pre ++ firstn 3 h) = false ->
  formatResponseText (pre ++ h) = formatResponseText h.
Proof.
  intros Hh Hpre. rewrite !formatResponseText_cuts.
  rewrite (strip_preamble_at pre h Hh Hpre), (strip_preamble_header h Hh).
  reflexivity.
Qed.

Lemma formatResponseText_drops_preamble_witness :
  formatResponseText
    (jsq "{'name':'Serum'} Here is my advice. "
       ++ js:"## ✨ Why" ++ [LF] ++ js:"• gentle")
  = formatResponseText (js:"## ✨ Why" ++ [LF] ++ js:"• gentle").
Proof.
  apply (formatResponseText_drops_preamble
           (jsq "{'name':'Serum'} Here is my advice. ")
           (js:"## ✨ Why" ++ [LF] ++ js:"• gentle"));
    vm_compute; reflexivity.
Defined.

(** *** What is shown *)

Lemma blank_no_header_start (s : jsstring) :
  starts_with_header s = true -> blank s = false.
Proof.
  intros H. apply starts_with_header_inv in H.
  destruct H as (u & r & -> & _). reflexivity.
Qed.

Lemma from_first_header_Some (s t : jsstring) :
  from_first_header s = Some t ->
  starts_with_header t = true /\ exists w, s = w ++ t.
Proof.
  induction s as [|c s IH]; [discriminate|].
  cbn [from_first_header].
  destruct (starts_with_header (c :: s)) eqn:E.
  - intros H. injection H as <-. split; [exact E|]. exists []. reflexivity.
  - intros H. apply IH in H. destruct H as (Ht & w & ->).
    split; [exact Ht|]. exists (c :: w). reflexivity.
Qed.

Lemma blank_app (s t : jsstring) : blank (s ++ t) = (blank s && blank t)%bool.
Proof. unfold blank. apply forallb_app. Qed.

Lemma from_first_header_None (s : jsstring) :
  from_first_header s = None -> has_header s = false.
Proof.
  induction s as [|c s IH]; [reflexivity|].
  cbn [from_first_header has_header].
  destruct (starts_with_header (c :: s)); [discriminate|].
  intros H. cbn [orb]. apply IH, H.
Qed.

Lemma blank_strip_preamble (s : jsstring) :
  blank (strip_preamble s) = blank s.
Proof.
  unfold strip_preamble. destruct (from_first_header s) as [t|] eqn:E;
    [|reflexivity].
  apply from_first_header_Some in E. destruct E as (Ht & w & ->).
  rewrite blank_app, (blank_no_header_start _ Ht), andb_false_r.
  reflexivity.
Qed.

(** The first piece of the cut starts with the piece being read. *)
Lemma cut_at_headers_first :
  forall s cur, exists p rest, cut_at_headers cur s = (cur ++ p) :: rest.
Proof.
  induction s as [|ch s IH]; intros cur.
  - exists [], []. cbn [cut_at_headers]. rewrite app_nil_r. reflexivity.
  - cbn [cut_at_headers].
    destruct (starts_with_header (ch :: s)
              && match cur with [] => false | _ :: _ => true end)%bool.
    + exists [], (cut_at_headers [ch] s). rewrite app_nil_r. reflexivity.
    + destruct (IH (cur ++ [ch])) as (p & rest & ->).
      exists (ch :: p), rest. rewrite <- app_assoc. reflexivity.
Qed.

Lemma render_section_nonspace (a : code_unit) (p : jsstring) :
  is_space a = false -> exists sec, render_section (a :: p) = Some sec.
Proof.
  intros Ha. unfold render_section.
  rewrite nonblank_blank. unfold blank. cbn [forallb]. rewrite Ha.
  cbn [andb negb]. eexists. reflexivity.
Qed.

(** X2: a reply is shown unless it is blank: formatResponseText shows
    no section exactly when the text is empty or white space only. *)
Theorem formatResponseText_shows_nothing_iff_blank (text : jsstring) :
  shown (formatResponseText text) = [] <-> blank text = true.
Proof.
  rewrite formatResponseText_cuts.
  rewrite <- (blank_strip_preamble text), <- blank_trim.
  destruct (trim (strip_preamble text)) as [|a t] eqn:E.
  - split; reflexivity.
  - pose proof (@trim_head _ _ _ E) as Ha.
    cbn [cut_at_headers andb].
    destruct (starts_with_header (a :: t)); cbn [andb app];
      destruct (cut_at_headers_first t [a]) as (p & rest & ->);
      cbn [app map];
      destruct (@render_section_nonspace a p Ha) as (sec & ->);
      cbn [shown]; unfold blank; cbn [forallb]; rewrite Ha;
      split; discriminate.
Qed.

(** *** Bullets *)

Lemma split_on_from_no_sep (sep : code_unit) :
  forall s cur q,
    ~ In sep cur -> In q (split_on_from sep cur s) -> ~ In sep q.
Proof.
  induction s as [|c s IH]; intros cur q Hcur Hq; cbn [split_on_from] in Hq.
  - destruct Hq as [<-|[]]. exact Hcur.
  - destruct (c =? sep)%N eqn:E.
    + destruct Hq as [<-|Hq]; [exact Hcur|].
      apply (IH [] q); [intros []|exact Hq].
    + apply (IH (cur ++ [c]) q); [|exact Hq].
      intros Hin. apply in_app_or in Hin. destruct Hin as [Hin|[->|[]]].
      * exact (Hcur Hin).
      * rewrite N.eqb_refl in E. discriminate.
Qed.

Lemma In_shown (sec : SectionView) (l : list (option SectionView)) :
  In sec (shown l) -> In (Some sec) l.
Proof.
  induction l as [|[s|] l IH]; cbn [shown]; [intros []| |].
  - intros [->|H]; [left; reflexivity|right; apply IH, H].
  - intros H. right. apply IH, H.
Qed.

(** X4: every bullet that is shown is a non-empty text without the
    bullet character and without white space at either end. *)
Theorem formatResponseText_bullets_clean
        (text : jsstring) (sec : SectionView) (b : jsstring) :
  In sec (shown (formatResponseText text)) ->
  In b (bulletPoints sec) ->
  b <> [] /\ ~ In BULLET b /\ trim b = b.
Proof.
  intros Hsec Hb. apply In_shown in Hsec.
  unfold formatResponseText in Hsec. apply in_map_iff in Hsec.
  destruct Hsec as (piece & Hr & _).
  unfold render_section in Hr.
  destruct (negb (nonblank piece)); [discriminate|].
  injection Hr as <-. cbn [bulletPoints] in Hb.
  apply in_map_iff in Hb. destruct Hb as (q & <- & Hq).
  apply filter_In in Hq. destruct Hq as [Hq Hnb].
  split; [|split].
  - unfold nonblank in Hnb. destruct (trim q); [discriminate|discriminate].
  - intros Hin. apply In_trim in Hin.
    unfold split_on in Hq.
    exact (@split_on_from_no_sep BULLET _ [] q (fun H => H) Hq Hin).
  - apply trim_idem.
Qed.

Lemma formatResponseText_bullets_clean_witness :
  js:"gentle" <> [] /\ ~ In BULLET (js:"gentle")
  /\ trim (js:"gentle") = js:"gentle".
Proof.
  apply (@formatResponseText_bullets_clean
           (js:"## ✨ Why" ++ [LF] ++ js:"•  gentle " ++ [LF] ++ js:"• ")
           (mkSection (js:"## ✨ Why") [js:"gentle"])
           (js:"gentle")).
  - vm_compute. left. reflexivity.
  - left. reflexivity.
Defined.


(** *** Titles *)

Lemma header_intro (u : code_unit) (r : jsstring) :
  existsb (fun m => (u =? m)%N) markers = true ->
  starts_with_header (35%N :: 35%N :: 32%N :: u :: r) = true.
Proof. intros H. cbn [starts_with_header]. rewrite H. reflexivity. Qed.

Lemma trimEnd_keeps_head (u : code_unit) (r : jsstring) :
  is_space u = false -> exists t, trimEnd (u :: r) = u :: t.
Proof.
  intros Hu. rewrite trimEnd_cons, Hu.
  destruct (trimEnd r) as [|c t]; eexists; reflexivity.
Qed.

Lemma trimEnd_cons_keeps (x u : code_unit) (r t : jsstring) :
  trimEnd (u :: r) = u :: t -> trimEnd (x :: u :: r) = x :: u :: t.
Proof. intros H. rewrite (trimEnd_cons x), H. reflexivity. Qed.

(** Trimming keeps a header at the start. *)
Lemma starts_with_header_trim (s : jsstring) :
  starts_with_header s = true -> starts_with_header (trim s) = true.
Proof.
  intros H. apply starts_with_header_inv in H.
  destruct H as (u & r & -> & Hu).
  destruct (marker_unit _ Hu) as (Hs & _ & _).
  unfold trim. cbn [trimStart]. change (is_space 35%N) with false. cbv iota.
  destruct (@trimEnd_keeps_head u r Hs) as [t Ht].
  pose proof (@trimEnd_cons_keeps 32%N u r t Ht) as H1.
  pose proof (@trimEnd_cons_keeps 35%N 32%N _ _ H1) as H2.
  pose proof (@trimEnd_cons_keeps 35%N 35%N _ _ H2) as H3.
  eapply eq_trans; [exact (f_equal starts_with_header H3)|].
  apply header_intro, Hu.
Qed.

Ltac no_header_here E :=
  apply starts_with_header_inv in E;
  let u' := fresh "u" in let r' := fresh "r" in
  let Heq := fresh "Heq" in
  destruct E as (u' & r' & Heq & _); try discriminate Heq.

(** After a cut at a header the piece being read takes the four code
    units of the header: no header starts inside a header. *)
Lemma cut_at_headers_header (u : code_unit) (r : jsstring) :
  existsb (fun m => (u =? m)%N) markers = true ->
  cut_at_headers [35%N] (35%N :: 32%N :: u :: r)
  = cut_at_headers [35%N; 35%N; 32%N; u] r.
Proof.
  intros Hu. destruct (marker_unit _ Hu) as (_ & _ & H35).
  cbn [cut_at_headers].
  destruct (starts_with_header (35%N :: 32%N :: u :: r)) eqn:E1;
    [no_header_here E1|].
  cbn [andb app].
  destruct (starts_with_header (32%N :: u :: r)) eqn:E2;
    [no_header_here E2|].
  cbn [andb app].
  destruct (starts_with_header (u :: r)) eqn:E3.
  { no_header_here E3. injection Heq as -> _. discriminate H35. }
  reflexivity.
Qed.

(** Every piece of the cut starts with a header, when the piece being
    read does. *)
Lemma cut_at_headers_pieces :
  forall n s cur,
    length s <= n ->
    starts_with_header cur = true ->
    Forall (fun p => starts_with_header p = true) (cut_at_headers cur s).
Proof.
  induction n as [|n IH]; intros s cur Hn Hcur.
  - destruct s; [|simpl in Hn; lia]. repeat constructor. exact Hcur.
  - destruct s as [|ch s]; [repeat constructor; exact Hcur|].
    cbn [cut_at_headers]. cbn [length] in Hn.
    assert (Hne : match cur with [] => false | _ :: _ => true end = true).
    { destruct cur; [discriminate Hcur|reflexivity]. }
    rewrite Hne, andb_true_r.
    destruct (starts_with_header (ch :: s)) eqn:E.
    + constructor; [exact Hcur|].
      apply starts_with_header_inv in E.
      destruct E as (u & r & Heq & Hu). injection Heq as -> ->.
      rewrite cut_at_headers_header by exact Hu.
      apply IH; [simpl in Hn; lia|apply header_intro, Hu].
    + apply IH; [lia|]. apply starts_with_header_app, Hcur.
Qed.

Lemma cut_at_headers_start (ch : code_unit) (s : jsstring) :
  cut_at_headers [] (ch :: s) = cut_at_headers [ch] s.
Proof. cbn [cut_at_headers]. rewrite andb_false_r. reflexivity. Qed.

Lemma cut_at_headers_pieces_top (t : jsstring) :
  starts_with_header t = true ->
  Forall (fun p => starts_with_header p = true) (cut_at_headers [] t).
Proof.
  intros H. apply starts_with_header_inv in H.
  destruct H as (u & r & -> & Hu).
  rewrite cut_at_headers_start, cut_at_headers_header by exact Hu.
  apply (@cut_at_headers_pieces (length r) r); [apply le_n|].
  apply header_intro, Hu.
Qed.

Lemma split_on_from_hd (sep : code_unit) :
  forall s cur, exists p, hd [] (split_on_from sep cur s) = cur ++ p.
Proof.
  induction s as [|c s IH]; intros cur; cbn [split_on_from].
  - exists []. rewrite app_nil_r. reflexivity.
  - destruct (c =? sep)%N.
    + exists []. rewrite app_nil_r. reflexivity.
    + destruct (IH (cur ++ [c])) as [p Hp]. exists (c :: p).
      rewrite Hp, <- app_assoc. reflexivity.
Qed.

Lemma split_on_from_other (sep c : code_unit) (cur s : jsstring) :
  (c =? sep)%N = false ->
  split_on_from sep cur (c :: s) = split_on_from sep (cur ++ [c]) s.
Proof. intros H. cbn [split_on_from]. rewrite H. reflexivity. Qed.

(** The first line of a piece that starts with a header starts with
    it. *)
Lemma first_line_header (p : jsstring) :
  starts_with_header p = true ->
  starts_with_header (hd [] (split_on LF p)) = true.
Proof.
  intros H. apply starts_with_header_inv in H.
  destruct H as (u & r & -> & Hu).
  destruct (marker_unit _ Hu) as (_ & Hlf & _).
  unfold split_on.
  rewrite split_on_from_other by reflexivity. cbn [app].
  rewrite split_on_from_other by reflexivity. cbn [app].
  rewrite split_on_from_other by reflexivity. cbn [app].
  rewrite split_on_from_other by exact Hlf. cbn [app].
  destruct (@split_on_from_hd LF r [35%N; 35%N; 32%N; u]) as [q Hq].
  eapply eq_trans; [exact (f_equal starts_with_header Hq)|].
  apply header_intro, Hu.
Qed.

(** X3: when the text has a recognized header, every section that is
    shown is titled by a header line: its title starts with "## " and a
    code unit of the class. *)
Theorem formatResponseText_titles_are_headers
        (text : jsstring) (sec : SectionView) :
  has_header text = true ->
  In sec (shown (formatResponseText text)) ->
  starts_with_header (title sec) = true.
Proof.
  intros Hh Hsec. rewrite formatResponseText_cuts in Hsec.
  unfold strip_preamble in Hsec.
  destruct (from_first_header text) as [h|] eqn:E.
  2:{ apply from_first_header_None in E. congruence. }
  apply from_first_header_Some in E. destruct E as (Hstart & _).
  apply starts_with_header_trim in Hstart.
  pose proof (cut_at_headers_pieces_top _ Hstart) as Hall.
  rewrite Forall_forall in Hall.
  apply In_shown in Hsec. apply in_map_iff in Hsec.
  destruct Hsec as (p & Hr & Hp). specialize (Hall p Hp).
  unfold render_section in Hr.
  destruct (negb (nonblank p)); [discriminate|].
  injection Hr as <-. cbn [title].
  apply starts_with_header_trim, first_line_header, Hall.
Qed.

Lemma formatResponseText_titles_are_headers_witness :
  starts_with_header (js:"## 🌟 Routine") = true.
Proof.
  apply (@formatResponseText_titles_are_headers
           (js:"Sure! ## ✨ Why" ++ [LF] ++ js:"• gentle" ++ [LF]
              ++ js:"## 🌟 Routine  " ++ [LF] ++ js:"• daily")
           (mkSection (js:"## 🌟 Routine") [js:"daily"])).
  - vm_compute. reflexivity.
  - vm_compute. right. left. reflexivity.
Defined.

End FormatExtras.
(** ** The conversions and the product cards on examples *)

Module RenderFacts.
Import RegExp JSON JS Chat JSMore React Render.

(** [Number(s) > 0] on strings: decimal literals with white space
    around them, a point without digits on one side, an exponent; the
    literals of other radices; what is no literal; what rounds to 0. *)
Lemma string_positive_examples :
  map string_positive
      [js:" 12 "; js:".5"; js:"5."; js:"+3e2"; js:"Infinity"; js:"0x1F";
       js:"0B1"; js:"1e-300"]
  = [true; true; true; true; true; true; true; true]
  /\ map string_positive
         [js:""; js:"  "; js:"0"; js:"-1"; js:"."; js:"1e"; js:"abc";
          js:"1,2"; js:"+0x10"; js:"0x"; js:"0o8"; js:"0x0"; js:"1e-400";
          js:"-Infinity"; js:"infinity"; js:"1 2"]
     = [false; false; false; false; false; false; false; false; false;
        false; false; false; false; false; false; false].
Proof. split; vm_compute; reflexivity. Qed.

(** [v > 0] on other values: true is 1, an array counts as the string
    of its elements joined by commas, an object as a text that is no
    number, unless it hides toString. *)
Lemma greater_than_zero_examples :
  greater_than_zero (Json (JBool true)) = Normal true
  /\ greater_than_zero (Json JNull) = Normal false
  /\ greater_than_zero Undefined = Normal false
  /\ greater_than_zero (Json (JArray [JString (js:"3")])) = Normal true
  /\ greater_than_zero (Json (JArray [JArray [JNumber false 3 0]]))
     = Normal true
  /\ greater_than_zero (Json (JArray [])) = Normal false
  /\ greater_than_zero (Json (JArray [JNumber false 1 0; JNumber false 2 0]))
     = Normal false
  /\ greater_than_zero (Json (JObject [(js:"valueOf", JNumber false 1 0)]))
     = Normal false
  /\ greater_than_zero (Json (JObject [(js:"toString", JNull)])) = Throw
  /\ greater_than_zero
       (Json (JArray [JObject [(js:"toString", JNull)]])) = Throw.
Proof. repeat (split; [vm_compute; reflexivity|]). vm_compute. reflexivity. Qed.

(** The place of the list of ingredients in the card of
    ProductCard.tsx. *)
Lemma ingredients_view_examples :
  IngredientsCard.ingredients_view
    (Json (JArray [JString (js:"water"); JString (js:"oil")]))
  = Normal (IngredientsCard.KeyIngredients
              [[TextNode (js:"water")]; [TextNode (js:"oil")]])
  /\ IngredientsCard.ingredients_view (Json (JArray []))
     = Normal (IngredientsCard.NoList [])
  /\ IngredientsCard.ingredients_view (Json (JNumber false 0 0))
     = Normal (IngredientsCard.NoList [NumberNode false 0 0])
  /\ IngredientsCard.ingredients_view (Json (JNumber false 7 0))
     = Normal (IngredientsCard.NoList [])
  /\ IngredientsCard.ingredients_view (Str (js:"water")) = Throw
  /\ IngredientsCard.ingredients_view
       (Json (JObject [(js:"length", JNumber false 1 0)])) = Throw
  /\ IngredientsCard.ingredients_view
       (Json (JObject [(js:"size", JNumber false 1 0)]))
     = Normal (IngredientsCard.NoList [])
  /\ IngredientsCard.ingredients_view
       (Json (JArray [JObject [(js:"name", JString (js:"water"))]]))
     = Throw.
Proof. repeat (split; [vm_compute; reflexivity|]). vm_compute. reflexivity. Qed.

End RenderFacts.

(** ** More on submitting, resetting and rendering *)

Module ChatExtras.
Import RegExp JSON JS Chat Shapes Shapes2 Render Session.
Import RegExpFacts ExtractFacts FormatFacts FormatExtras ChatClaims.

(** X8: a submission that succeeds: for a non-blank input and no request
    in flight, when the body of the response is a JSON object, the
    conversation gains the user message and an assistant message whose
    content is the [text] member of the object ([undefined] when it has
    none), the input is cleared, the in-flight flag is false, and the
    one request sent carried the conversation with the user message. *)
Theorem handleSubmit_success
        (st : ChatState) (ok : bool) (body : jsstring)
        (ms : list (jsstring * json)) :
  blank (input st) = false ->
  isLoading st = false ->
  JSON.parse body = Some (JObject ms) ->
  let userMessage := mkMessage user (Str (input st)) in
  handleSubmit (Response ok body) st
  = (Normal (mkChat (messages st
                       ++ [userMessage;
                           mkMessage assistant
                                     (own_property (js:"text") ms)])
                    [] false),
     Some (messages st ++ [userMessage])).
Proof.
  intros Hb Hl Hp userMessage.
  unfold handleSubmit. rewrite handleSubmit_send_accepted by assumption.
  unfold handleSubmit_receive. rewrite Hp. cbn [Get messages input].
  fold userMessage. rewrite <- app_assoc. reflexivity.
Qed.

Lemma handleSubmit_success_witness :
  let st := mkChat [greeting] (js:"dry skin?") false in
  let ms := [(js:"text", JString (js:"Try a serum."));
             (js:"products", JNull)] in
  handleSubmit (Response true (jsq "{'text':'Try a serum.','products':null}"))
               st
  = (Normal (mkChat (messages st
                       ++ [mkMessage user (Str (input st));
                           mkMessage assistant
                                     (own_property (js:"text") ms)])
                    [] false),
     Some (messages st ++ [mkMessage user (Str (input st))])).
Proof.
  intros st ms.
  apply (@handleSubmit_success st true
           (jsq "{'text':'Try a serum.','products':null}") ms);
    vm_compute; reflexivity.
Defined.

Lemma renderMessages_last_throws
      (CardView : Type) (Card : Product -> completion CardView)
      (v : Variant) (m : ChatMessage) :
  renderMessage Card v m = Throw ->
  forall l, renderMessages Card v (l ++ [m]) = Throw.
Proof.
  intros Hm. induction l as [|x l IH]; cbn [app renderMessages].
  - rewrite Hm. reflexivity.
  - rewrite IH. destruct (renderMessage Card v x); reflexivity.
Qed.

(** X9: a reply without a text is not replaced by the fallback and
    breaks the page: when the body of the response decodes to JSON whose
    [text] is not a string (an object without [text], a number, an
    array, ...), the submission completes with an assistant message
    that holds this value, and rendering the conversation throws,
    whatever the product card is. *)
Theorem reply_without_text_breaks_render
        (CardView : Type) (Card : Product -> completion CardView)
        (v : Variant) (st : ChatState) (ok : bool) (body : jsstring)
        (data : json) (t : value) :
  blank (input st) = false ->
  isLoading st = false ->
  JSON.parse body = Some data ->
  Get data (js:"text") = Normal t ->
  is_string t = false ->
  exists st',
    fst (handleSubmit (Response ok body) st) = Normal st'
    /\ messages st'
       = messages st ++ [mkMessage user (Str (input st));
                         mkMessage assistant t]
    /\ renderMessages Card v (messages st') = Throw.
Proof.
  intros Hb Hl Hp Hg Ht.
  unfold handleSubmit. rewrite handleSubmit_send_accepted by assumption.
  unfold handleSubmit_receive. rewrite Hp, Hg. cbn [fst messages input].
  eexists. split; [reflexivity|]. cbn [messages].
  rewrite <- app_assoc. cbn [app]. split; [reflexivity|].
  change (messages st ++ [mkMessage user (Str (input st));
                          mkMessage assistant t])
    with (messages st ++ [mkMessage user (Str (input st))]
                      ++ [mkMessage assistant t]).
  rewrite app_assoc. apply renderMessages_last_throws.
  unfold renderMessage. cbn [role content].
  destruct t as [|[]]; try reflexivity. discriminate Ht.
Qed.

Lemma reply_without_text_breaks_render_witness :
  exists st',
    fst (handleSubmit (Response false (jsq "{'detail':'Not Found'}"))
                      (mkChat [greeting] (js:"hello") false))
    = Normal st'
    /\ messages st'
       = [greeting; mkMessage user (Str (js:"hello"));
          mkMessage assistant Undefined]
    /\ renderMessages ImageCard.ProductCard with_greeting (messages st')
       = Throw.
Proof.
  assert (Hp : JSON.parse (jsq "{'detail':'Not Found'}")
               = Some (JObject [(js:"detail", JString (js:"Not Found"))]))
    by (vm_compute; reflexivity).
  assert (Hb : blank (js:"hello") = false) by (vm_compute; reflexivity).
  assert (Hg : Get (JObject [(js:"detail", JString (js:"Not Found"))])
                   (js:"text") = Normal Undefined)
    by (vm_compute; reflexivity).
  exact (@reply_without_text_breaks_render
           ImageCard.View ImageCard.ProductCard with_greeting
           (mkChat [greeting] (js:"hello") false) false
           _ _ _ Hb eq_refl Hp Hg eq_refl).
Defined.

(** *** Sessions *)

(** A step keeps the in-flight flag and the pending request together. *)
Lemma step_in_flight (v : Variant) (p p' : Page) (e : Event) :
  isLoading (chat p) = in_flight p ->
  step v p e = Normal p' ->
  isLoading (chat p') = in_flight p'.
Proof.
  intros Hinv Hstep. destruct e as [text| |res|]; cbn [step] in Hstep.
  - injection Hstep as <-. exact Hinv.
  - unfold handleSubmit_send in Hstep. rewrite submit_guard in Hstep.
    destruct (blank (input (chat p)) || isLoading (chat p))%bool;
      injection Hstep as <-; [exact Hinv|reflexivity].
  - unfold in_flight in Hinv.
    destruct (pending p) as [req|] eqn:E.
    + destruct (handleSubmit_receive res (chat p)) as [st|] eqn:Er;
        [|discriminate].
      injection Hstep as <-. unfold handleSubmit_receive in Er.
      destruct res as [|ok body].
      * injection Er as <-. reflexivity.
      * destruct (JSON.parse body) as [data|].
        -- destruct (Get data (js:"text")); [|discriminate].
           injection Er as <-. reflexivity.
        -- injection Er as <-. reflexivity.
    + injection Hstep as <-. unfold in_flight. rewrite E. exact Hinv.
  - injection Hstep as <-. exact Hinv.
Qed.

Lemma run_in_flight (v : Variant) :
  forall events p p',
    isLoading (chat p) = in_flight p ->
    run v p events = Normal p' ->
    isLoading (chat p') = in_flight p'.
Proof.
  induction events as [|e events IH]; intros p p' Hinv Hrun;
    cbn [run] in Hrun.
  - injection Hrun as <-. exact Hinv.
  - destruct (step v p e) as [p1|] eqn:E; [|discriminate].
    apply (IH p1 p'); [|exact Hrun].
    exact (@step_in_flight v p p1 e Hinv E).
Qed.

(** X10: the in-flight flag tells the truth: after any sequence of
    events from the page load, the flag is set exactly when a request
    has been sent and has not settled. *)
Theorem in_flight_flag_is_exact
        (v : Variant) (events : list Event) (p : Page) :
  run v (start v) events = Normal p ->
  isLoading (chat p) = in_flight p.
Proof.
  intros H. exact (@run_in_flight v events (start v) p eq_refl H).
Qed.

Lemma in_flight_flag_is_exact_witness :
  run with_greeting (start with_greeting)
      [Change (js:"hi"); SubmitForm; Reset; Change (js:"again"); SubmitForm]
  = Normal
      (mkPage (mkChat [greeting] (js:"again") true)
              (Some [greeting; mkMessage user (Str (js:"hi"))]))
  /\ isLoading (mkChat [greeting] (js:"again") true) = true.
Proof.
  assert (Hrun :
    run with_greeting (start with_greeting)
        [Change (js:"hi"); SubmitForm; Reset; Change (js:"again");
         SubmitForm]
    = Normal
        (mkPage (mkChat [greeting] (js:"again") true)
                (Some [greeting; mkMessage user (Str (js:"hi"))])))
    by (vm_compute; reflexivity).
  split; [exact Hrun|].
  exact (@in_flight_flag_is_exact with_greeting _ _ Hrun).
Defined.

(** X13: while a request is pending nothing can be submitted: after any
    sequence of events from the page load that leaves a request
    pending, submitting the form changes nothing and sends nothing,
    whatever the input holds. *)
Theorem submit_blocked_while_pending
        (v : Variant) (events : list Event) (p : Page) :
  run v (start v) events = Normal p ->
  in_flight p = true ->
  step v p SubmitForm = Normal p
  /\ handleSubmit_send (chat p) = (chat p, None).
Proof.
  intros Hrun Hp.
  pose proof (@run_in_flight v events (start v) p eq_refl Hrun) as Hinv.
  rewrite Hp in Hinv.
  assert (Hs : handleSubmit_send (chat p) = (chat p, None)).
  { unfold handleSubmit_send. rewrite submit_guard, Hinv, orb_true_r.
    reflexivity. }
  split; [|exact Hs]. cbn [step]. rewrite Hs. destruct p. reflexivity.
Qed.

Lemma submit_blocked_while_pending_witness :
  let p := mkPage (mkChat [mkMessage user (Str (js:"hi"))] (js:"more") true)
                  (Some [mkMessage user (Str (js:"hi"))]) in
  step empty_start p SubmitForm = Normal p
  /\ handleSubmit_send (chat p) = (chat p, None).
Proof.
  intros p.
  assert (Hrun : run empty_start (start empty_start)
                     [Change (js:"hi"); SubmitForm; Change (js:"more")]
                 = Normal p)
    by (vm_compute; reflexivity).
  exact (@submit_blocked_while_pending empty_start _ p Hrun eq_refl).
Defined.

End ChatExtras.

(** ** More on sessions and on what is rendered *)

Module SessionExtras.
Import RegExp JSON JS Chat Shapes Shapes2 React Render Session.
Import RegExpFacts ExtractFacts FormatFacts FormatExtras ChatClaims.

Lemma last_is_user_snoc (l : list ChatMessage) (m : ChatMessage) :
  last_is_user (l ++ [m])
  = match role m with user => true | assistant => false end.
Proof. unfold last_is_user. rewrite rev_app_distr. reflexivity. Qed.

Lemma last_is_user_cons (x y : ChatMessage) (l : list ChatMessage) :
  last_is_user (x :: y :: l) = last_is_user (y :: l).
Proof.
  unfold last_is_user. cbn [rev].
  destruct (rev l ++ [y]) as [|z t] eqn:E; [|reflexivity].
  destruct (rev l); discriminate.
Qed.

Lemma no_user_twice_cons2 (x y : ChatMessage) (l : list ChatMessage) :
  no_user_twice (x :: y :: l)
  = match role x, role y with
    | user, user => false
    | _, _ => no_user_twice (y :: l)
    end.
Proof. cbn [no_user_twice]. destruct (role x), (role y); reflexivity. Qed.

Lemma no_user_twice_single (m : ChatMessage) : no_user_twice [m] = true.
Proof. cbn [no_user_twice]. destruct (role m); reflexivity. Qed.

Lemma no_user_twice_snoc (m : ChatMessage) :
  forall l,
    no_user_twice l = true ->
    (role m = user -> last_is_user l = false) ->
    no_user_twice (l ++ [m]) = true.
Proof.
  induction l as [|x l IH]; intros Hl Hm.
  - apply no_user_twice_single.
  - destruct l as [|y l].
    + cbn [app]. rewrite no_user_twice_cons2.
      destruct (role x) eqn:Ex; [|apply no_user_twice_single].
      destruct (role m) eqn:Em; [|apply no_user_twice_single].
      specialize (Hm eq_refl). unfold last_is_user in Hm.
      cbn [rev app] in Hm. rewrite Ex in Hm. discriminate.
    + rewrite no_user_twice_cons2 in Hl.
      assert (Hyl : no_user_twice (y :: l) = true).
      { destruct (role x), (role y); (discriminate Hl || exact Hl). }
      assert (Htail : no_user_twice ((y :: l) ++ [m]) = true).
      { apply IH; [exact Hyl|].
        intros Em. rewrite <- (last_is_user_cons x y l). apply Hm, Em. }
      cbn [app] in *. rewrite no_user_twice_cons2.
      destruct (role x), (role y); (discriminate Hl || exact Htail).
Qed.

Lemma assistant_only_ok (l : list ChatMessage) :
  assistant_only l = true ->
  no_user_twice l = true /\ last_is_user l = false.
Proof.
  unfold assistant_only. intros H. split.
  - induction l as [|x l IH]; [reflexivity|].
    cbn [forallb] in H. apply andb_true_iff in H. destruct H as [Hx Hl].
    cbn [no_user_twice]. destruct (role x); [discriminate|].
    apply IH, Hl.
  - unfold last_is_user. destruct (rev l) as [|m t] eqn:E; [reflexivity|].
    rewrite forallb_forall in H.
    assert (Hin : In m l).
    { apply in_rev. rewrite E. left. reflexivity. }
    specialize (H m Hin). destruct (role m); [discriminate|reflexivity].
Qed.

Lemma step_alternating (v : Variant) (p p' : Page) (e : Event) :
  assistant_only (resetMessages v) = true ->
  alternating (chat p) ->
  step v p e = Normal p' ->
  alternating (chat p').
Proof.
  intros Hv [Hno Hlast] Hstep.
  assert (Hrecv : forall res st,
             handleSubmit_receive res (chat p) = Normal st ->
             alternating st).
  { intros res st Er. unfold handleSubmit_receive in Er.
    assert (Hadd : forall m, role m = assistant ->
               alternating (mkChat (messages (chat p) ++ [m])
                                   (input (chat p)) false)).
    { intros m Hm. split; cbn [messages isLoading].
      - apply no_user_twice_snoc; [exact Hno|].
        intros Hu. rewrite Hm in Hu. discriminate.
      - rewrite last_is_user_snoc, Hm. discriminate. }
    destruct res as [|ok body].
    - injection Er as <-. apply Hadd. reflexivity.
    - destruct (JSON.parse body) as [data|].
      + destruct (Get data (js:"text")); [|discriminate].
        injection Er as <-. apply Hadd. reflexivity.
      + injection Er as <-. apply Hadd. reflexivity. }
  destruct e as [text| |res|]; cbn [step] in Hstep.
  - injection Hstep as <-. split; [exact Hno|exact Hlast].
  - unfold handleSubmit_send in Hstep. rewrite submit_guard in Hstep.
    destruct (blank (input (chat p)) || isLoading (chat p))%bool eqn:G;
      injection Hstep as <-; [split; [exact Hno|exact Hlast]|].
    apply orb_false_iff in G. destruct G as [_ Hl].
    split; cbn [chat messages isLoading]; [|reflexivity].
    apply no_user_twice_snoc; [exact Hno|]. intros _.
    destruct (last_is_user (messages (chat p))); [|reflexivity].
    rewrite (Hlast eq_refl) in Hl. discriminate.
  - destruct (pending p).
    + destruct (handleSubmit_receive res (chat p)) as [st|] eqn:Er;
        [|discriminate].
      injection Hstep as <-. apply (Hrecv res st Er).
    + injection Hstep as <-. split; [exact Hno|exact Hlast].
  - injection Hstep as <-. unfold alternating, handleReset.
    cbn [chat messages isLoading].
    destruct (assistant_only_ok _ Hv) as [H1 H2].
    split; [exact H1|]. rewrite H2. discriminate.
Qed.

Lemma run_alternating (v : Variant) :
  assistant_only (resetMessages v) = true ->
  forall events p p',
    alternating (chat p) ->
    run v p events = Normal p' ->
    alternating (chat p').
Proof.
  intros Hv. induction events as [|e events IH]; intros p p' Hinv Hrun;
    cbn [run] in Hrun.
  - injection Hrun as <-. exact Hinv.
  - destruct (step v p e) as [p1|] eqn:E; [|discriminate].
    apply (IH p1 p'); [|exact Hrun].
    exact (@step_alternating v p p1 e Hv Hinv E).
Qed.

(** X11: the reply to a submission comes before the next user message:
    in a variant whose initial and reset conversations hold assistant
    messages only (both variants do), after any sequence of events from
    the page load the conversation never holds two user messages in a
    row, and it ends in a user message only while a request is in
    flight. *)
Theorem no_two_user_messages_in_a_row
        (v : Variant) (events : list Event) (p : Page) :
  assistant_only (initialMessages v) = true ->
  assistant_only (resetMessages v) = true ->
  run v (start v) events = Normal p ->
  no_user_twice (messages (chat p)) = true
  /\ (last_is_user (messages (chat p)) = true
      -> isLoading (chat p) = true).
Proof.
  intros Hi Hr Hrun.
  apply (@run_alternating v Hr events (start v) p); [|exact Hrun].
  destruct (assistant_only_ok _ Hi) as [H1 H2].
  split; cbn [start chat initial messages]; [exact H1|].
  rewrite H2. discriminate.
Qed.

Lemma no_two_user_messages_in_a_row_witness :
  let events := [Change (js:"hi"); SubmitForm; Change (js:"more");
                 SubmitForm; Settle NetworkError; SubmitForm] in
  let p := mkPage (mkChat [greeting; mkMessage user (Str (js:"hi"));
                           fallback; mkMessage user (Str (js:"more"))]
                          [] true)
                  (Some [greeting; mkMessage user (Str (js:"hi"));
                         fallback; mkMessage user (Str (js:"more"))]) in
  run with_greeting (start with_greeting) events = Normal p
  /\ no_user_twice (messages (chat p)) = true
  /\ (last_is_user (messages (chat p)) = true
      -> isLoading (chat p) = true).
Proof.
  intros events p.
  assert (Hrun : run with_greeting (start with_greeting) events = Normal p)
    by (vm_compute; reflexivity).
  split; [exact Hrun|].
  exact (@no_two_user_messages_in_a_row with_greeting events p
           eq_refl eq_refl Hrun).
Defined.

(** X12: a reset does not cancel the pending request: when the reset
    button is clicked between a submission and its reply, the in-flight
    flag stays set, and the reply lands in the fresh conversation,
    which then holds the reset messages followed by an assistant
    message, without the user message it answers. *)
Theorem reset_while_pending_keeps_reply
        (v : Variant) (st : ChatState) (res : FetchResult) (p : Page) :
  blank (input st) = false ->
  isLoading st = false ->
  run v (mkPage st None) [SubmitForm; Reset; Settle res] = Normal p ->
  isLoading (handleReset v (fst (handleSubmit_send st))) = true
  /\ pending p = None
  /\ isLoading (chat p) = false
  /\ exists reply,
      role reply = assistant
      /\ messages (chat p) = resetMessages v ++ [reply].
Proof.
  intros Hb Hl Hrun. cbn [run step chat pending] in Hrun.
  rewrite (handleSubmit_send_accepted st Hb Hl) in *.
  cbn [run step chat pending fst handleReset isLoading] in *.
  split; [reflexivity|].
  unfold handleSubmit_receive in Hrun. cbn [messages input] in Hrun.
  destruct res as [|ok body].
  - injection Hrun as <-. cbn [pending chat isLoading messages].
    repeat split. exists fallback. split; reflexivity.
  - destruct (JSON.parse body) as [data|].
    + destruct (Get data (js:"text")) as [t|]; [|discriminate].
      injection Hrun as <-. cbn [pending chat isLoading messages].
      repeat split. eexists. split; [|reflexivity]. reflexivity.
    + injection Hrun as <-. cbn [pending chat isLoading messages].
      repeat split. exists fallback. split; reflexivity.
Qed.

Lemma reset_while_pending_keeps_reply_witness :
  exists reply,
    role reply = assistant
    /\ messages (mkChat [greeting; mkMessage assistant (Str (js:"Try a serum."))]
                        [] false)
       = resetMessages with_greeting ++ [reply].
Proof.
  assert (Hb : blank (js:"dry skin?") = false) by (vm_compute; reflexivity).
  assert (Hrun :
    run with_greeting
        (mkPage (mkChat [greeting] (js:"dry skin?") false) None)
        [SubmitForm; Reset;
         Settle (Response true (jsq "{'text':'Try a serum.'}"))]
    = Normal (mkPage (mkChat [greeting;
                              mkMessage assistant (Str (js:"Try a serum."))]
                             [] false) None))
    by (vm_compute; reflexivity).
  exact (proj2 (proj2 (proj2
           (@reset_while_pending_keeps_reply
              with_greeting (mkChat [greeting] (js:"dry skin?") false)
              _ _ Hb eq_refl Hrun)))).
Defined.

(** X14: a reply that holds a product object and then its sections is
    rendered as the card of the object and the sections from the first
    header on: when no opening brace comes before the object, the
    braces of the object nest one level at most, and the first header
    comes after the object, the cards are those of the products that
    extractProducts gives for the object alone and the sections are
    those of the text from the first header on; the object is not part
    of what the sections show.  The message is shown when the product
    card renders these products, and rendering it throws when the card
    throws on one of them. *)
Theorem renderMessage_card_and_sections
        (CardView : Type) (Card : Product -> completion CardView)
        (v : Variant) (pre mid h : jsstring) (ps : list piece) :
  no_lbrace pre = true ->
  forallb piece_ok ps = true ->
  starts_with_header h = true ->
  has_header ((pre ++ object_text ps ++ mid) ++ firstn 3 h) = false ->
  renderMessage Card v
    (mkMessage assistant (Str ((pre ++ object_text ps ++ mid) ++ h)))
  = match renderProducts Card (extractProducts v (object_text ps)) with
    | Normal cards => Normal (AssistantView cards (formatResponseText h))
    | Throw => Throw
    end.
Proof.
  intros Hpre Hok Hh Hno. unfold renderMessage, Str. cbn [role content].
  assert (He : extractProducts v ((pre ++ object_text ps ++ mid) ++ h)
               = extractProducts v (object_text ps)).
  { unfold extractProducts, extractProducts_try.
    replace ((pre ++ object_text ps ++ mid) ++ h)
      with (pre ++ object_text ps ++ (mid ++ h))
      by (rewrite <- !app_assoc; reflexivity).
    rewrite (string_match_object pre (mid ++ h) ps Hpre Hok).
    pose proof (string_match_object [] [] ps eq_refl Hok) as H0.
    cbn [app] in H0. rewrite app_nil_r in H0. rewrite H0. reflexivity. }
  assert (Hf : formatResponseText ((pre ++ object_text ps ++ mid) ++ h)
               = formatResponseText h).
  { rewrite !formatResponseText_cuts.
    rewrite (strip_preamble_at _ h Hh Hno), (strip_preamble_header h Hh).
    reflexivity. }
  rewrite He, Hf. reflexivity.
Qed.

(** The reply is: Here: {"name":"Serum"} enjoy. and then the section
    Why with one bullet; the card is the one with the image. *)
Lemma renderMessage_card_and_sections_witness :
  renderMessage ImageCard.ProductCard empty_start
    (mkMessage assistant
       (Str ((js:"Here: " ++ object_text [Plain (jsq "'name':'Serum'")]
                ++ js:" enjoy. ")
               ++ (js:"## ✨ Why" ++ [LF] ++ js:"• gentle"))))
  = match renderProducts ImageCard.ProductCard
            (extractProducts empty_start
                             (object_text [Plain (jsq "'name':'Serum'")]))
    with
    | Normal cards =>
      Normal (AssistantView cards
                (formatResponseText (js:"## ✨ Why" ++ [LF] ++ js:"• gentle")))
    | Throw => Throw
    end.
Proof.
  apply (@renderMessage_card_and_sections
           ImageCard.View ImageCard.ProductCard empty_start
           (js:"Here: ") (js:" enjoy. ")
           (js:"## ✨ Why" ++ [LF] ++ js:"• gentle")
           [Plain (jsq "'name':'Serum'")]);
    vm_compute; reflexivity.
Defined.

(** Replies as they are rendered: the card and one section for a
    product whose name is a string; a render that throws, with either
    card, for a product whose name is an object, with the card of
    ProductCard.tsx for ingredients that are a string, and with the
    card with the image for a link that has no string. *)
Lemma renderMessage_examples :
  renderMessage ImageCard.ProductCard empty_start
    (mkMessage assistant
       (Str (jsq "Here: {'name':'Serum'} enjoy. ## ✨ Why"
               ++ [LF] ++ js:"• gentle")))
  = Normal
      (AssistantView
         (Some [ImageCard.mkView
                  (Str (js:"#")) (Str defaultImageUrl) (Str (js:"Serum"))
                  [TextNode (js:"Serum")] [] [TextNode (js:"€XX.XX")]])
         [Some (mkSection (js:"## ✨ Why") [js:"gentle"])])
  /\ renderMessage ImageCard.ProductCard empty_start
       (mkMessage assistant (Str (jsq "{'name':{'first':'Serum'}}")))
     = Throw
  /\ renderMessage IngredientsCard.ProductCard empty_start
       (mkMessage assistant (Str (jsq "{'name':{'first':'Serum'}}")))
     = Throw
  /\ renderMessage IngredientsCard.ProductCard empty_start
       (mkMessage assistant
          (Str (jsq "{'name':'Serum','ingredients':'water'}")))
     = Throw
  /\ renderMessage ImageCard.ProductCard empty_start
       (mkMessage assistant
          (Str (jsq "{'name':'Serum','url':{'toString':1}}")))
     = Throw.
Proof.
  split; [vm_compute; reflexivity|].
  split; [vm_compute; reflexivity|].
  split; [vm_compute; reflexivity|].
  split; vm_compute; reflexivity.
Qed.

End SessionExtras.
(** ** The script that fetches the reviews *)

Module FetchReviewsFacts.
Import FetchReviews.

Section Directory.

Variable File : Type.
Variable File_eq_dec : forall f f' : File, {f = f'} + {f <> f'}.
Variable OUTPUT_FILE : string -> File.


Lemma process_counters (c : Counters) (files : Files File)
      (item : string * Fetch) :
  let c' := fst (process File_eq_dec OUTPUT_FILE (c, files) item) in
  SUCCESS_COUNT c' + ERROR_COUNT c' = SUCCESS_COUNT c + ERROR_COUNT c + 1
  /\ FILES_CREATED c'
     = FILES_CREATED c + (if with_reviews item then 1 else 0)
  /\ REVIEW_COUNT c' = REVIEW_COUNT c + lines_of item
  /\ SUCCESS_COUNT c'
     = SUCCESS_COUNT c + (if fetched item then 1 else 0).
Proof.
  destruct item as [id [|lines]];
    cbn [FetchReviews.process fst snd with_reviews lines_of fetched].
  - cbn. repeat split; lia.
  - destruct (0 <? lines) eqn:E; cbn; repeat split; try lia.
    apply Nat.ltb_ge in E. lia.
Qed.

(** The counters after the loop, whatever they were before it. *)
Lemma fold_counters :
  forall items c files,
    let c' :=
      fst (fold_left (process File_eq_dec OUTPUT_FILE) items (c, files)) in
    SUCCESS_COUNT c' + ERROR_COUNT c'
    = SUCCESS_COUNT c + ERROR_COUNT c + length items
    /\ FILES_CREATED c'
       = FILES_CREATED c + length (filter with_reviews items)
    /\ REVIEW_COUNT c' = REVIEW_COUNT c + list_sum (map lines_of items)
    /\ SUCCESS_COUNT c'
       = SUCCESS_COUNT c + length (filter fetched items).
Proof.
  induction items as [|item rest IH]; intros c files.
  - cbn. repeat split; lia.
  - cbn [fold_left].
    pose proof (process_counters c files item) as Hp. cbv zeta in Hp.
    destruct (process File_eq_dec OUTPUT_FILE (c, files) item) as [c1 files1].
    cbn [fst] in Hp. destruct Hp as (H1 & H2 & H3 & H4).
    specialize (IH c1 files1). cbv zeta in IH |- *.
    destruct IH as (I1 & I2 & I3 & I4).
    cbn [length filter map]. unfold list_sum in *. cbn [fold_right].
    destruct (with_reviews item), (fetched item); cbn [length];
      repeat split; lia.
Qed.

Lemma with_reviews_fetched (item : string * Fetch) :
  with_reviews item = true -> fetched item = true /\ 1 <= lines_of item.
Proof.
  unfold with_reviews, fetched, lines_of. destruct (snd item) as [|lines].
  - discriminate.
  - intros H. apply Nat.ltb_lt in H. split; [reflexivity|lia].
Qed.

Lemma with_reviews_bounds (items : list (string * Fetch)) :
  length (filter with_reviews items) <= length (filter fetched items)
  /\ length (filter with_reviews items) <= list_sum (map lines_of items).
Proof.
  unfold list_sum.
  induction items as [|item rest [IH1 IH2]]; [cbn; split; lia|].
  cbn [filter map fold_right].
  destruct (with_reviews item) eqn:E.
  - destruct (with_reviews_fetched _ E) as [Hf Hl]. rewrite Hf.
    cbn [length]. split; lia.
  - destruct (fetched item); cbn [length]; split; lia.
Qed.


(** X15: the summary adds up: whatever the fetches did and whatever
    the output directory held, every product is counted once, as a
    success or as an error; the files counted are the fetches that left
    reviews, the reviews counted are their lines; there are no more
    files than successes and no more files than reviews. *)
Theorem fetch_all_summary (files : Files File)
        (items : list (string * Fetch)) :
  let c := fst (fetch_all File_eq_dec OUTPUT_FILE files items) in
  SUCCESS_COUNT c + ERROR_COUNT c = TOTAL items
  /\ SUCCESS_COUNT c = length (filter fetched items)
  /\ FILES_CREATED c = length (filter with_reviews items)
  /\ REVIEW_COUNT c = list_sum (map lines_of items)
  /\ FILES_CREATED c <= SUCCESS_COUNT c
  /\ FILES_CREATED c <= REVIEW_COUNT c.
Proof.
  unfold FetchReviews.fetch_all, TOTAL.
  pose proof (fold_counters items (mkCounters 0 0 0 0) files) as H.
  cbv zeta in H |- *. cbn [SUCCESS_COUNT ERROR_COUNT REVIEW_COUNT
                           FILES_CREATED] in H.
  destruct H as (H1 & H2 & H3 & H4).
  destruct (with_reviews_bounds items) as [B1 B2].
  rewrite H1, H2, H3, H4. cbn [plus]. repeat split; assumption.
Qed.










End Directory.


End FetchReviewsFacts.
